(** * AppService operator: the reconcile loop and its accessor helpers

    A shallow embedding of the Go sources
      - api/v1alpha1/appservice_types.go   (the AppService record),
      - pkg/reconciler/reconciler.go       (BaseReconciler: GetObject, CreateOrUpdate),
      - controllers/appservice_controller.go (AppServiceReconciler: Reconcile,
        deploymentForAppService, serviceForAppService, updateCondition,
        cleanupResources).

    The control-plane client is an interface in the source.  A program that
    talks to it is embedded as a tree of client calls ([prog]): every call
    names the operation and its argument, and the continuation receives
    whatever the store answers.  [run] executes such a tree against an
    arbitrary stateful store and records the calls with their answers, so a
    statement about "every reconcile pass" quantifies over every store. *)

From Stdlib Require Import ZArith Ascii String List Bool.
From stdpp Require Import base option list gmap strings.

Open Scope string_scope.
Open Scope Z_scope.

(** ** Kubernetes data, as far as the sources read or write it *)

(** [metav1.Time]: an instant, counted from Go's zero instant, so that
    [Time.IsZero] is the test against 0. *)
Definition Time := Z.

(** [time.Duration]: nanoseconds. *)
Definition Duration := Z.
Definition Second : Duration := 1000000000.

(** int32 fields are only copied and compared, never computed with. *)
Definition int32 := Z.

Record NamespacedName := mkNamespacedName {
  nn_Namespace : string;
  nn_Name : string
}.

Record OwnerReference := mkOwnerReference {
  or_APIVersion : string;
  or_Kind : string;
  or_Name : string;
  or_UID : string;
  or_Controller : bool;
  or_BlockOwnerDeletion : bool
}.

Record ObjectMeta := mkObjectMeta {
  Name : string;
  Namespace : string;
  UID : string;
  ResourceVersion : string;
  DeletionTimestamp : option Time;      (* *metav1.Time, nil = None *)
  Finalizers : list string;
  Labels : option (gmap string string); (* nil map = None *)
  OwnerReferences : list OwnerReference
}.

Definition ObjectMeta_zero : ObjectMeta :=
  mkObjectMeta "" "" "" "" None [] None [].

(** [metav1.ConditionStatus] is a string type with three named constants. *)
Definition ConditionStatus := string.
Definition ConditionTrue : ConditionStatus := "True".
Definition ConditionFalse : ConditionStatus := "False".
Definition ConditionUnknown : ConditionStatus := "Unknown".

Record Condition := mkCondition {
  c_Type : string;
  c_Status : ConditionStatus;
  c_Reason : string;
  c_Message : string;
  c_LastTransitionTime : Time
}.

(** *** api/v1alpha1/appservice_types.go *)

Record ResourceRequirements := mkResourceRequirements {
  CPU : string;
  Memory : string
}.

Record AppServiceSpec := mkAppServiceSpec {
  Replicas : int32;
  Image : string;
  Port : int32;
  Environment : gmap string string;
  Resources : ResourceRequirements
}.

Record AppServiceStatus := mkAppServiceStatus {
  Phase : string;
  AvailableReplicas : int32;
  Conditions : list Condition;
  LastReconcileTime : Time
}.

Record AppService := mkAppService {
  app_ObjectMeta : ObjectMeta;
  app_Spec : AppServiceSpec;
  app_Status : AppServiceStatus
}.

(** *** The parts of apps/v1 Deployment and core/v1 Service the controller builds *)

Record ContainerPort := mkContainerPort { ContainerPort_ : int32 }.

Record EnvVar := mkEnvVar { ev_Name : string; ev_Value : string }.

(** [corev1.ResourceList] is a Go map: [None] is the nil map of the zero
    value, [Some ∅] the empty map literal [corev1.ResourceList{}]. *)
Definition ResourceList := option (gmap string string).

Record corev1_ResourceRequirements := mkCoreResourceRequirements {
  Requests : ResourceList;
  Limits : ResourceList
}.

Definition corev1_ResourceRequirements_zero : corev1_ResourceRequirements :=
  mkCoreResourceRequirements None None.

Record Container := mkContainer {
  ct_Name : string;
  ct_Image : string;
  ct_Ports : list ContainerPort;
  ct_Env : list EnvVar;
  ct_Resources : corev1_ResourceRequirements
}.

Record PodTemplateSpec := mkPodTemplateSpec {
  tpl_ObjectMeta : ObjectMeta;
  tpl_Containers : list Container
}.

Record DeploymentSpec := mkDeploymentSpec {
  dep_Replicas : option int32;                     (* *int32 *)
  dep_Selector : option (gmap string string);      (* *LabelSelector, MatchLabels *)
  dep_Template : PodTemplateSpec
}.

Record DeploymentStatus := mkDeploymentStatus {
  dep_AvailableReplicas : int32
}.

Record Deployment := mkDeployment {
  dep_ObjectMeta : ObjectMeta;
  dep_Spec : DeploymentSpec;
  dep_Status : DeploymentStatus
}.

Inductive IntOrString := FromInt (i : Z) | FromString (s : string).

Record ServicePort := mkServicePort {
  sp_Port : int32;
  sp_TargetPort : IntOrString
}.

Inductive ServiceType := ServiceTypeUnset | ServiceTypeClusterIP.

Record ServiceSpec := mkServiceSpec {
  svc_Selector : option (gmap string string);
  svc_Ports : list ServicePort;
  svc_Type : ServiceType
}.

Record Service := mkService {
  svc_ObjectMeta : ObjectMeta;
  svc_Spec : ServiceSpec
}.

(** ** The client interface *)

(** [client.Object]: the three kinds of object the operator handles. *)
Inductive kind := KAppService | KDeployment | KService.

Definition Object (K : kind) : Type :=
  match K with
  | KAppService => AppService
  | KDeployment => Deployment
  | KService => Service
  end.

Definition metaOf {K : kind} : Object K -> ObjectMeta :=
  match K with
  | KAppService => app_ObjectMeta
  | KDeployment => dep_ObjectMeta
  | KService => svc_ObjectMeta
  end.

Definition withMeta {K : kind} (m : ObjectMeta) : Object K -> Object K :=
  match K with
  | KAppService => fun o => mkAppService m (app_Spec o) (app_Status o)
  | KDeployment => fun o => mkDeployment m (dep_Spec o) (dep_Status o)
  | KService => fun o => mkService m (svc_Spec o)
  end.

Definition GetResourceVersion {K : kind} (o : Object K) : string :=
  ResourceVersion (metaOf o).

Definition SetResourceVersion {K : kind} (v : string) (o : Object K) : Object K :=
  let m := metaOf o in
  withMeta
    (mkObjectMeta (Name m) (Namespace m) (UID m) v (DeletionTimestamp m)
                  (Finalizers m) (Labels m) (OwnerReferences m)) o.

(** [client.ObjectKeyFromObject] *)
Definition ObjectKeyFromObject {K : kind} (o : Object K) : NamespacedName :=
  mkNamespacedName (Namespace (metaOf o)) (Name (metaOf o)).

(** Errors of the client.  [errors.IsNotFound] tests the status reason. *)
Inductive StatusReason :=
  ReasonNotFound | ReasonAlreadyExists | ReasonConflict | ReasonInvalid
| ReasonServerTimeout.

Inductive error :=
| StatusError (reason : StatusReason)
| OtherError (msg : string).

Definition IsNotFound (e : error) : bool :=
  match e with
  | StatusError ReasonNotFound => true
  | _ => false
  end.

(** The calls a pass can make: the methods of [client.Client] that the sources
    use, and the clock ([metav1.Now]). *)
Inductive call :=
| Get (K : kind) (key : NamespacedName)
| Create (K : kind) (o : Object K)
| Update (K : kind) (o : Object K)
| StatusUpdate (K : kind) (o : Object K)
| Delete (K : kind) (o : Object K)
| Now.

(** What comes back.  [Get], [Create], [Update] and [Status().Update] either
    fail, leaving the caller's object as it was, or fill the caller's object
    with the object as the store holds it. *)
Definition reply (c : call) : Type :=
  match c with
  | Get K _ | Create K _ | Update K _ | StatusUpdate K _ => (error + Object K)%type
  | Delete _ _ => option error
  | Now => Time
  end.

Inductive prog (A : Type) : Type :=
| Ret (a : A)
| Do (c : call) (k : reply c -> prog A).
Arguments Ret {A} a.
Arguments Do {A} c k.

Fixpoint bind {A B : Type} (p : prog A) (f : A -> prog B) : prog B :=
  match p with
  | Ret a => f a
  | Do c k => Do c (fun r => bind (k r) f)
  end.

Definition perform (c : call) : prog (reply c) := Do c Ret.

#[global] Instance prog_ret : MRet prog := @Ret.
#[global] Instance prog_bind : MBind prog := fun A B f p => bind p f.

(** One recorded call: what was asked and what the store answered. *)
Inductive event := Event (c : call) (r : reply c).

(** A store: any state [W] with an answer to every call. *)
Definition handler (W : Type) := forall c : call, W -> reply c * W.

Fixpoint run {W A : Type} (h : handler W) (p : prog A) (w : W)
  : A * W * list event :=
  match p with
  | Ret a => (a, w, [])
  | Do c k =>
      let '(r, w1) := h c w in
      let '(a, w2, tr) := run h (k r) w1 in
      (a, w2, Event c r :: tr)
  end.

Definition calls (tr : list event) : list call :=
  map (fun e => match e with Event c _ => c end) tr.

(** ** pkg/reconciler/reconciler.go *)

Module reconciler.

(** [ctrl.Result] *)
Record Result := mkResult {
  Requeue : bool;
  RequeueAfter : Duration
}.

Definition Done : Result := mkResult false 0.
Definition Requeue_ : Result := mkResult true 0.
Definition RequeueAfter_ (duration : Duration) : Result := mkResult false duration.

Section BaseReconciler.
Context {K : kind}.

(** [GetObject(ctx, key, obj)]: the result is the returned error and the
    caller's [obj] after the call. *)
Definition GetObject (key : NamespacedName) (obj : Object K)
  : prog (option error * Object K) :=
  got ← perform (Get K key);
  match got with
  | inl err =>
      if IsNotFound err then mret (None, obj)
      else mret (Some err, obj)
  | inr filled => mret (None, filled)
  end.

(** [CreateOrUpdate(ctx, obj)]: [existing] starts as a deep copy of [obj]
    and is what [Get] fills. *)
Definition CreateOrUpdate (obj : Object K) : prog (option error) :=
  let key := ObjectKeyFromObject obj in
  got ← perform (Get K key);
  match got with
  | inl err =>
      if IsNotFound err then
        created ← perform (Create K obj);
        mret (match created with inl e => Some e | inr _ => None end)
      else mret (Some err)
  | inr existing =>
      let obj := SetResourceVersion (GetResourceVersion existing) obj in
      updated ← perform (Update K obj);
      mret (match updated with inl e => Some e | inr _ => None end)
  end.

(** [DeleteIfExists(ctx, obj)]; [errors.IsNotFound(nil)] is false. *)
Definition DeleteIfExists (obj : Object K) : prog (option error) :=
  err ← perform (Delete K obj);
  match err with
  | Some e => if IsNotFound e then mret None else mret (Some e)
  | None => mret None
  end.
End BaseReconciler.

End reconciler.

(** ** controllers/appservice_controller.go *)

Module controllers.
Import reconciler.

(** What [apiutil.GVKForObject] finds for an AppService in the scheme:
    [None] when the type was never registered. *)
Record runtime_Scheme := mkScheme {
  gvk_AppService : option (string * string)   (* apiVersion, kind *)
}.

Record AppServiceReconciler := mkAppServiceReconciler {
  Scheme : runtime_Scheme
}.

(** How a call of [Reconcile] ends: with its two results, or in a run-time
    panic (the nil dereference of [*deployment.Spec.Replicas]). *)
Inductive outcome :=
| Returned (res : Result) (err : option error)
| Panicked.

(** A block of statements either executes a [return] or falls through. *)
Inductive flow (A : Type) :=
| Return_ (o : outcome)
| Continue (a : A).
Arguments Return_ {A} o.
Arguments Continue {A} a.

(** *** controllerutil and metav1 helpers the controller calls *)

(** [IsZero] on a [metav1.Time] pointer: nil or the zero instant. *)
Definition IsZero (t : option Time) : bool :=
  match t with
  | None => true
  | Some t => Z.eqb t 0
  end.

Definition ContainsFinalizer (o : AppService) (finalizer : string) : bool :=
  existsb (String.eqb finalizer) (Finalizers (app_ObjectMeta o)).

Definition with_Finalizers (fs : list string) (o : AppService) : AppService :=
  let m := app_ObjectMeta o in
  mkAppService
    (mkObjectMeta (Name m) (Namespace m) (UID m) (ResourceVersion m)
                  (DeletionTimestamp m) fs (Labels m) (OwnerReferences m))
    (app_Spec o) (app_Status o).

(** Appends unless already there. *)
Definition AddFinalizer (o : AppService) (finalizer : string) : AppService :=
  if ContainsFinalizer o finalizer then o
  else with_Finalizers (Finalizers (app_ObjectMeta o) ++ [finalizer]) o.

(** Drops every occurrence. *)
Definition RemoveFinalizer (o : AppService) (finalizer : string) : AppService :=
  with_Finalizers
    (List.filter (fun f => negb (String.eqb f finalizer)) (Finalizers (app_ObjectMeta o))) o.

(** [controllerutil.SetControllerReference(owner, controlled, scheme)] on a
    freshly built [controlled] in the owner's namespace: the owner reference
    is set when the scheme knows the owner's type; otherwise the call fails
    and [controlled] is unchanged.  The controller ignores that error. *)
Definition SetControllerReference {K : kind}
    (owner : AppService) (controlled : Object K) (scheme : runtime_Scheme) : Object K :=
  match gvk_AppService scheme with
  | None => controlled
  | Some (apiVersion, knd) =>
      let m := metaOf controlled in
      let ref := mkOwnerReference apiVersion knd (Name (app_ObjectMeta owner))
                                  (UID (app_ObjectMeta owner)) true true in
      withMeta
        (mkObjectMeta (Name m) (Namespace m) (UID m) (ResourceVersion m)
                      (DeletionTimestamp m) (Finalizers m) (Labels m)
                      (OwnerReferences m ++ [ref])) controlled
  end.

(** *** The controller's own functions *)

Definition deploymentForAppService (r : AppServiceReconciler) (app : AppService)
  : Deployment :=
  let labels : gmap string string := {[ "app" := Name (app_ObjectMeta app) ]} in
  let replicas := Replicas (app_Spec app) in
  let container :=
    mkContainer (Name (app_ObjectMeta app)) (Image (app_Spec app))
                [mkContainerPort (Port (app_Spec app))] []
                corev1_ResourceRequirements_zero in
  let container :=
    if Nat.ltb 0 (size (Environment (app_Spec app))) then
      let envVars :=
        map (fun kv => mkEnvVar (fst kv) (snd kv))
            (map_to_list (Environment (app_Spec app))) in
      mkContainer (ct_Name container) (ct_Image container) (ct_Ports container)
                  envVars (ct_Resources container)
    else container in
  let container :=
    if negb (String.eqb (CPU (Resources (app_Spec app))) "")
       || negb (String.eqb (Memory (Resources (app_Spec app))) "") then
      mkContainer (ct_Name container) (ct_Image container) (ct_Ports container)
                  (ct_Env container)
                  (mkCoreResourceRequirements (Some (∅ : gmap string string))
                                              (Some (∅ : gmap string string)))
    else container in
  let containers := [container] in
  let dep :=
    mkDeployment
      (mkObjectMeta (Name (app_ObjectMeta app)) (Namespace (app_ObjectMeta app))
                    "" "" None [] None [])
      (mkDeploymentSpec (Some replicas) (Some labels)
         (mkPodTemplateSpec
            (mkObjectMeta "" "" "" "" None [] (Some labels) [])
            containers))
      (mkDeploymentStatus 0) in
  SetControllerReference (K := KDeployment) app dep (Scheme r).

Definition serviceForAppService (r : AppServiceReconciler) (app : AppService)
  : Service :=
  let labels : gmap string string := {[ "app" := Name (app_ObjectMeta app) ]} in
  let svc :=
    mkService
      (mkObjectMeta (Name (app_ObjectMeta app)) (Namespace (app_ObjectMeta app))
                    "" "" None [] None [])
      (mkServiceSpec (Some labels)
         [mkServicePort (Port (app_Spec app)) (FromInt (Port (app_Spec app)))]
         ServiceTypeClusterIP) in
  SetControllerReference (K := KService) app svc (Scheme r).

Definition with_Status (st : AppServiceStatus) (app : AppService) : AppService :=
  mkAppService (app_ObjectMeta app) (app_Spec app) st.

Definition with_Conditions (cs : list Condition) (app : AppService) : AppService :=
  let st := app_Status app in
  with_Status
    (mkAppServiceStatus (Phase st) (AvailableReplicas st) cs (LastReconcileTime st)) app.

(** The [for i, c := range app.Status.Conditions] loop of [updateCondition]
    followed by the [append] that is reached when the loop runs out. *)
Fixpoint updateCondition_loop (condition : Condition) (conditions : list Condition)
  : list Condition :=
  match conditions with
  | [] => [condition]
  | c :: rest =>
      if String.eqb (c_Type c) (c_Type condition) then
        if negb (String.eqb (c_Status c) (c_Status condition)) then condition :: rest
        else c :: rest
      else c :: updateCondition_loop condition rest
  end.

(** [updateCondition(app, condType, status, reason, message)].  The first
    thing the function does is read the clock for [LastTransitionTime]; that
    reading is the argument [now]. *)
Definition updateCondition (now : Time) (app : AppService) (condType : string)
    (status : ConditionStatus) (reason message : string) : AppService :=
  let condition := mkCondition condType status reason message now in
  with_Conditions (updateCondition_loop condition (Conditions (app_Status app))) app.

(** [cleanupResources] writes a log line and returns nil. *)
Definition cleanupResources (r : AppServiceReconciler) (app : AppService)
  : prog (option error) :=
  mret None.

Definition finalizer : string := "example.com/finalizer".

Definition with_dep_Replicas (n : option int32) (d : Deployment) : Deployment :=
  mkDeployment (dep_ObjectMeta d)
    (mkDeploymentSpec n (dep_Selector (dep_Spec d)) (dep_Template (dep_Spec d)))
    (dep_Status d).

Definition keyOf (app : AppService) : NamespacedName :=
  mkNamespacedName (Namespace (app_ObjectMeta app)) (Name (app_ObjectMeta app)).

(** [Reconcile(ctx, req)].  Log lines are left out. *)
Definition Reconcile (r : AppServiceReconciler) (req : NamespacedName)
  : prog outcome :=
  got ← perform (Get KAppService req);
  match got with
  | inl err =>
      if IsNotFound err then mret (Returned Done None)
      else mret (Returned Done (Some err))
  | inr appService =>
      gate ←
        (if IsZero (DeletionTimestamp (app_ObjectMeta appService)) then
           if negb (ContainsFinalizer appService finalizer) then
             let appService := AddFinalizer appService finalizer in
             upd ← perform (Update KAppService appService);
             match upd with
             | inl err => mret (Return_ (Returned Done (Some err)))
             | inr appService => mret (Continue appService)
             end
           else mret (Continue appService)
         else
           if ContainsFinalizer appService finalizer then
             cerr ← cleanupResources r appService;
             match cerr with
             | Some err => mret (Return_ (Returned Done (Some err)))
             | None =>
                 let appService := RemoveFinalizer appService finalizer in
                 upd ← perform (Update KAppService appService);
                 match upd with
                 | inl err => mret (Return_ (Returned Done (Some err)))
                 | inr _ => mret (Return_ (Returned Done None))
                 end
             end
           else mret (Return_ (Returned Done None)));
      match gate with
      | Return_ o => mret o
      | Continue appService =>
          gotDep ← perform (Get KDeployment (keyOf appService));
          match gotDep with
          | inl err =>
              if IsNotFound err then
                let dep := deploymentForAppService r appService in
                created ← perform (Create KDeployment dep);
                match created with
                | inl err => mret (Returned Done (Some err))
                | inr _ => mret (Returned Requeue_ None)
                end
              else mret (Returned Done (Some err))
          | inr deployment =>
              match dep_Replicas (dep_Spec deployment) with
              | None => mret Panicked
              | Some replicas =>
                  if negb (Z.eqb replicas (Replicas (app_Spec appService))) then
                    let deployment :=
                      with_dep_Replicas (Some (Replicas (app_Spec appService)))
                                        deployment in
                    upd ← perform (Update KDeployment deployment);
                    match upd with
                    | inl err => mret (Returned Done (Some err))
                    | inr _ => mret (Returned Requeue_ None)
                    end
                  else
                    gotSvc ← perform (Get KService (keyOf appService));
                    match gotSvc with
                    | inl err =>
                        if IsNotFound err then
                          let svc := serviceForAppService r appService in
                          created ← perform (Create KService svc);
                          match created with
                          | inl err => mret (Returned Done (Some err))
                          | inr _ => mret (Returned Requeue_ None)
                          end
                        else mret (Returned Done (Some err))
                    | inr service =>
                        let st := app_Status appService in
                        let appService :=
                          with_Status
                            (mkAppServiceStatus (Phase st)
                               (dep_AvailableReplicas (dep_Status deployment))
                               (Conditions st) (LastReconcileTime st))
                            appService in
                        now ← perform Now;
                        let st := app_Status appService in
                        let appService :=
                          with_Status
                            (mkAppServiceStatus (Phase st) (AvailableReplicas st)
                               (Conditions st) now)
                            appService in
                        let setPhase (phase : string) (a : AppService) :=
                          let st := app_Status a in
                          with_Status
                            (mkAppServiceStatus phase (AvailableReplicas st)
                               (Conditions st) (LastReconcileTime st)) a in
                        appService ←
                          (if Z.eqb (dep_AvailableReplicas (dep_Status deployment))
                                    (Replicas (app_Spec appService)) then
                             let appService := setPhase "Running" appService in
                             now ← perform Now;
                             mret (updateCondition now appService "Ready" ConditionTrue
                                     "DeploymentReady" "All replicas are available")
                           else
                             let appService := setPhase "Pending" appService in
                             now ← perform Now;
                             mret (updateCondition now appService "Ready" ConditionFalse
                                     "DeploymentNotReady" "Waiting for replicas"));
                        upd ← perform (StatusUpdate KAppService appService);
                        match upd with
                        | inl err => mret (Returned Done (Some err))
                        | inr _ => mret (Returned (RequeueAfter_ (30 * Second)) None)
                        end
                    end
              end
          end
      end
  end.

End controllers.

(** ** pkg/watcher/watcher.go *)

Module watcher.

(** [watch.EventType] and [EventType] are string types. *)
Definition watch_Added : string := "ADDED".
Definition watch_Modified : string := "MODIFIED".
Definition watch_Deleted : string := "DELETED".
Definition watch_Bookmark : string := "BOOKMARK".
Definition watch_Error : string := "ERROR".

Definition EventAdded : string := "ADDED".
Definition EventModified : string := "MODIFIED".
Definition EventDeleted : string := "DELETED".
Definition EventError : string := "ERROR".

Section Events.
Context {O : Type}.   (* runtime.Object *)

Record watch_Event := mkWatchEvent {
  we_Type : string;
  we_Object : O
}.

Record Event := mkEvent {
  ev_Type : string;
  ev_Object : O
}.

(** [ConvertToEvent]: the [switch] on [watchEvent.Type] with its default. *)
Definition ConvertToEvent (watchEvent : watch_Event) : Event :=
  let eventType :=
    if String.eqb (we_Type watchEvent) watch_Added then EventAdded
    else if String.eqb (we_Type watchEvent) watch_Modified then EventModified
    else if String.eqb (we_Type watchEvent) watch_Deleted then EventDeleted
    else if String.eqb (we_Type watchEvent) watch_Error then EventError
    else EventError in
  mkEvent eventType (we_Object watchEvent).
End Events.
Arguments watch_Event O : clear implicits.
Arguments Event O : clear implicits.

End watcher.

(** ** A control-plane store to run passes against *)

Module store.
Import reconciler controllers.

#[global] Instance NamespacedName_eq_dec : EqDecision NamespacedName.
Proof. solve_decision. Defined.

#[global] Program Instance NamespacedName_countable : Countable NamespacedName :=
  inj_countable' (fun k => (nn_Namespace k, nn_Name k))
                 (fun p => mkNamespacedName (fst p) (snd p)) _.
Next Obligation. by intros []. Qed.

(** Modelled from the spec: the control-plane store is not part of this
    repository (spec 4.1 and 6: get, create, update by key; not-found is an
    ordinary answer; every stored object carries a version stamp, and an
    update whose stamp is not the stored one is refused as a conflict).
    A write stamps the stored object with the successor of the stamp it
    replaces; reading the clock advances it. *)
Record Store := mkStore {
  appServices : gmap NamespacedName AppService;
  deployments : gmap NamespacedName Deployment;
  services : gmap NamespacedName Service;
  clock : Time
}.

Definition table (K : kind) : Store -> gmap NamespacedName (Object K) :=
  match K with
  | KAppService => appServices
  | KDeployment => deployments
  | KService => services
  end.

Definition with_table (K : kind)
  : gmap NamespacedName (Object K) -> Store -> Store :=
  match K with
  | KAppService => fun t s => mkStore t (deployments s) (services s) (clock s)
  | KDeployment => fun t s => mkStore (appServices s) t (services s) (clock s)
  | KService => fun t s => mkStore (appServices s) (deployments s) t (clock s)
  end.

Definition next_version (v : string) : string := String "+"%char v.

(** The status subresource: the stored object with the status of [new]. *)
Definition with_status_of {K : kind} : Object K -> Object K -> Object K :=
  match K with
  | KAppService => fun new cur => with_Status (app_Status new) cur
  | KDeployment => fun new cur =>
      mkDeployment (dep_ObjectMeta cur) (dep_Spec cur) (dep_Status new)
  | KService => fun new cur => cur
  end.

Definition write (K : kind) (candidate : Object K) (s : Store)
  : (error + Object K) * Store :=
  let key := ObjectKeyFromObject candidate in
  let stored := SetResourceVersion (next_version (GetResourceVersion candidate))
                                   candidate in
  (inr stored, with_table K (<[key := stored]> (table K s)) s).

Definition api : handler Store := fun c =>
  match c as c0 return Store -> reply c0 * Store with
  | Get K key => fun s =>
      match table K s !! key with
      | Some o => (inr o, s)
      | None => (inl (StatusError ReasonNotFound), s)
      end
  | Create K o => fun s =>
      match table K s !! ObjectKeyFromObject o with
      | Some _ => (inl (StatusError ReasonAlreadyExists), s)
      | None => write K o s
      end
  | Update K o => fun s =>
      match table K s !! ObjectKeyFromObject o with
      | None => (inl (StatusError ReasonNotFound), s)
      | Some cur =>
          if String.eqb (GetResourceVersion o) (GetResourceVersion cur)
          then write K o s
          else (inl (StatusError ReasonConflict), s)
      end
  | StatusUpdate K o => fun s =>
      match table K s !! ObjectKeyFromObject o with
      | None => (inl (StatusError ReasonNotFound), s)
      | Some cur =>
          if String.eqb (GetResourceVersion o) (GetResourceVersion cur)
          then write K (SetResourceVersion (GetResourceVersion o) (with_status_of o cur)) s
          else (inl (StatusError ReasonConflict), s)
      end
  | Delete K o => fun s =>
      match table K s !! ObjectKeyFromObject o with
      | None => (Some (StatusError ReasonNotFound), s)
      | Some _ => (None, with_table K (delete (ObjectKeyFromObject o) (table K s)) s)
      end
  | Now => fun s =>
      (clock s,
       mkStore (appServices s) (deployments s) (services s) (clock s + 1))
  end.

(** Another writer: [other] acts on the store once, right after the answer to
    the first call of the pass (the flag says whether it is still to act). *)
Definition with_interference {W : Type} (h : handler W) (other : W -> W)
  : handler (W * bool) := fun c '(w, pending) =>
  let '(r, w1) := h c w in
  (r, (if pending then other w1 else w1, false)).

End store.

(** ** Passes in a row *)

Module rounds.
Import reconciler controllers store.

(** An object as the store holds it after accepting it. *)
Definition stored {K : kind} (o : Object K) : Object K :=
  SetResourceVersion (next_version (GetResourceVersion o)) o.

(** The record a pass goes on with after the finalizer block, against the
    store: the stored record itself when it has the finalizer, and else
    the record the store hands back for the update that adds it. *)
Definition with_finalizer (app : AppService) : AppService :=
  if ContainsFinalizer app finalizer then app
  else stored (K := KAppService) (AddFinalizer app finalizer).

(** The work queue hands a key that was requeued to [Reconcile] again:
    [n] passes for one key, one after the other, with nobody else writing
    to the store in between. *)
Fixpoint passes (n : nat) (r : AppServiceReconciler) (req : NamespacedName)
    (s : Store) : list outcome * Store :=
  match n with
  | O => ([], s)
  | S n =>
      let '(out, s1, _) := run api (Reconcile r req) s in
      let '(outs, s2) := passes n r req s1 in
      (out :: outs, s2)
  end.

(** The store holds, under [req], a live record with the finalizer, a
    workload with the record's replica count, and an endpoint. *)
Definition settled (req : NamespacedName) (s : Store) : bool :=
  match appServices s !! req, deployments s !! req, services s !! req with
  | Some app, Some d, Some _ =>
      bool_decide (keyOf app = req)
      && IsZero (DeletionTimestamp (app_ObjectMeta app))
      && ContainsFinalizer app finalizer
      && match dep_Replicas (dep_Spec d) with
         | Some n => Z.eqb n (Replicas (app_Spec app))
         | None => false
         end
  | _, _, _ => false
  end.

End rounds.

(** ** What a recorded pass shows *)

Module trace.
Import reconciler controllers.

(** The error a call was answered with, if any. *)
Definition failure (e : event) : option error :=
  match e with
  | Event c r =>
      match c as c0 return reply c0 -> option error with
      | Get _ _ | Create _ _ | Update _ _ | StatusUpdate _ _ =>
          fun r => match r with inl err => Some err | inr _ => None end
      | Delete _ _ => fun r => r
      | Now => fun _ => None
      end r
  end.

Definition failures (tr : list event) : list error := omap failure tr.

Definition kind_of (c : call) : option kind :=
  match c with
  | Get K _ | Create K _ | Update K _ | StatusUpdate K _ | Delete K _ => Some K
  | Now => None
  end.

Definition kind_eqb (a b : kind) : bool :=
  match a, b with
  | KAppService, KAppService | KDeployment, KDeployment | KService, KService => true
  | _, _ => false
  end.

(** The call reads or writes an object of kind [K]. *)
Definition touches (K : kind) (c : call) : bool :=
  match kind_of c with
  | Some K' => kind_eqb K' K
  | None => false
  end.

(** The call asks the store to change something. *)
Definition mutates (c : call) : bool :=
  match c with
  | Create _ _ | Update _ _ | StatusUpdate _ _ | Delete _ _ => true
  | Get _ _ | Now => false
  end.

(** The call concerns a dependent managed resource (workload or endpoint). *)
Definition dependent (c : call) : bool :=
  touches KDeployment c || touches KService c.

(** An object of any kind, seen as a record or as a workload. *)
Definition as_AppService {K : kind} : Object K -> option AppService :=
  match K with
  | KAppService => fun a => Some a
  | _ => fun _ => None
  end.

Definition as_Deployment {K : kind} : Object K -> option Deployment :=
  match K with
  | KDeployment => fun d => Some d
  | _ => fun _ => None
  end.

Definition answered {K : kind} (r : error + Object K) : option (Object K) :=
  match r with
  | inl _ => None
  | inr o => Some o
  end.

(** The record as a successful [Get] or [Update] of it handed it back. *)
Definition record_read (e : event) : option AppService :=
  match e with
  | Event c r =>
      match c as c0 return reply c0 -> option AppService with
      | Get K _ => fun r => answered r ≫= as_AppService
      | Update K _ => fun r => answered r ≫= as_AppService
      | _ => fun _ => None
      end r
  end.

(** The in-memory copy of the record at the end of the recorded calls. *)
Definition held_record (tr : list event) : option AppService :=
  last (omap record_read tr).

(** The workload as a successful [Get] handed it back. *)
Definition workload_read (e : event) : option Deployment :=
  match e with
  | Event c r =>
      match c as c0 return reply c0 -> option Deployment with
      | Get K _ => fun r => answered r ≫= as_Deployment
      | _ => fun _ => None
      end r
  end.

(** The record as sent to the status subresource. *)
Definition status_write (e : event) : option AppService :=
  match e with
  | Event (StatusUpdate K a) _ => as_AppService a
  | _ => None
  end.

(** The workload or the endpoint a [Create] call carries. *)
Definition created_workload (c : call) : option Deployment :=
  match c with
  | Create K o => as_Deployment o
  | _ => None
  end.

Definition as_Service {K : kind} : Object K -> option Service :=
  match K with
  | KService => fun v => Some v
  | _ => fun _ => None
  end.

Definition created_endpoint (c : call) : option Service :=
  match c with
  | Create K o => as_Service o
  | _ => None
  end.

(** The record an [Update] call (not a status update) carries. *)
Definition record_update (c : call) : option AppService :=
  match c with
  | Update K o => as_AppService o
  | _ => None
  end.

(** The error part of an answer. *)
Definition error_of {A : Type} (answer : error + A) : option error :=
  match answer with
  | inl err => Some err
  | inr _ => None
  end.

End trace.

(** ** Sequences of [updateCondition] calls *)

Module conditions.
Import controllers.

Record setCondition := mkSetCondition {
  sc_now : Time;
  sc_Type : string;
  sc_Status : ConditionStatus;
  sc_Reason : string;
  sc_Message : string
}.

Definition apply_call (app : AppService) (c : setCondition) : AppService :=
  updateCondition (sc_now c) app (sc_Type c) (sc_Status c) (sc_Reason c) (sc_Message c).

Definition apply_calls (cs : list setCondition) (app : AppService) : AppService :=
  fold_left apply_call cs app.

Definition types_of (app : AppService) : list string :=
  map c_Type (Conditions (app_Status app)).

(** The condition the loop of [updateCondition] stops at. *)
Definition first_of_type (condType : string) (app : AppService) : option Condition :=
  List.find (fun c => String.eqb (c_Type c) condType) (Conditions (app_Status app)).

(** The sequence of calls of the witness: the Ready condition is set, its
    reason is edited, then its status flips. *)
Definition ready_set : setCondition := mkSetCondition 1 "Ready" "True" "A" "a".
Definition ready_reworded : setCondition := mkSetCondition 2 "Ready" "True" "B" "b".
Definition ready_lost : setCondition := mkSetCondition 3 "Ready" "False" "C" "c".

End conditions.

(** ** Reading the synthesized workload *)

Module synthesizer.
Import controllers.

Definition with_Resources (res : ResourceRequirements) (app : AppService) : AppService :=
  let sp := app_Spec app in
  mkAppService (app_ObjectMeta app)
    (mkAppServiceSpec (Replicas sp) (Image sp) (Port sp) (Environment sp) res)
    (app_Status app).

(** The resource requirements of the containers of the synthesized workload. *)
Definition container_resources (d : Deployment) : list corev1_ResourceRequirements :=
  map ct_Resources (tpl_Containers (dep_Template (dep_Spec d))).

End synthesizer.

(** ** Concrete records and stores *)

Module scenario.
Import reconciler controllers store.

Definition r0 : AppServiceReconciler :=
  mkAppServiceReconciler (mkScheme (Some ("example.com/v1alpha1", "AppService"))).

Definition key_a : NamespacedName := mkNamespacedName "default" "a".

Definition record (fins : list string) (deletion : option Time)
    (replicas port : int32) (conds : list Condition) : AppService :=
  mkAppService (mkObjectMeta "a" "default" "uid-a" "1" deletion fins None [])
    (mkAppServiceSpec replicas "x:1" port ∅ (mkResourceRequirements "" ""))
    (mkAppServiceStatus "" 0 conds 0).

(** The workload as the store holds it once its controller has reported
    [available] replicas. *)
Definition workload (app : AppService) (available : int32) : Deployment :=
  let d := deploymentForAppService r0 app in
  mkDeployment (dep_ObjectMeta d) (dep_Spec d) (mkDeploymentStatus available).

Definition store_of (app : AppService) (dep : option Deployment)
    (svc : option Service) : Store :=
  mkStore {[ key_a := app ]}
          (match dep with Some d => {[ key_a := d ]} | None => ∅ end)
          (match svc with Some v => {[ key_a := v ]} | None => ∅ end)
          100.

Definition endpoint (app : AppService) : Service := serviceForAppService r0 app.

(** A record just created: no finalizer yet, no dependents. *)
Definition fresh_record : AppService := record [] None 3 80 [].
Definition fresh_store : Store := store_of fresh_record None None.

(** A record whose dependents exist and whose workload reports all three
    replicas available. *)
Definition settled_record : AppService := record [finalizer] None 3 80 [].
Definition settled_store : Store :=
  store_of settled_record (Some (workload settled_record 3))
           (Some (endpoint settled_record)).


(** A record asking for a negative number of replicas, nothing created yet. *)
Definition negative_record : AppService := record [finalizer] None (-1) 80 [].
Definition negative_store : Store := store_of negative_record None None.

(** The record scaled from 3 to 5 while the workload still has 3. *)
Definition scaled_record : AppService := record [finalizer] None 5 80 [].

End scenario.

(** * Properties *)

(** ** The condition tracker *)

Module condition_facts.
Import controllers conditions.

Lemma with_Conditions_same app :
  with_Conditions (Conditions (app_Status app)) app = app.
Proof. by destruct app as [m sp [ph av cs t]]. Qed.

Lemma Conditions_updateCondition now app condType status reason message :
  Conditions (app_Status (updateCondition now app condType status reason message))
  = updateCondition_loop (mkCondition condType status reason message now)
                         (Conditions (app_Status app)).
Proof. reflexivity. Qed.

(** The loop leaves the list of types alone when the type is already there,
    and appends the type otherwise. *)
Lemma loop_types condition cs :
  map c_Type (updateCondition_loop condition cs)
  = if decide (c_Type condition ∈ map c_Type cs) then map c_Type cs
    else (map c_Type cs ++ [c_Type condition])%list.
Proof.
  induction cs as [|c rest IH]; simpl.
  - done.
  - destruct (String.eqb (c_Type c) (c_Type condition)) eqn:Heq.
    + apply String.eqb_eq in Heq.
      rewrite decide_True by (apply elem_of_cons; by left).
      by destruct (negb _); simpl; rewrite ?Heq.
    + apply String.eqb_neq in Heq. simpl. rewrite IH.
      destruct (decide (c_Type condition ∈ map c_Type rest)) as [Hin|Hin].
      * by rewrite decide_True by (apply elem_of_cons; by right).
      * rewrite decide_False; [done|].
        intros [?|?]%elem_of_cons; congruence.
Qed.

Lemma loop_NoDup condition cs :
  NoDup (map c_Type cs) → NoDup (map c_Type (updateCondition_loop condition cs)).
Proof.
  intros Hnd. rewrite loop_types. case_decide as Hin; [done|].
  apply NoDup_app. split_and!; [done| |apply NoDup_singleton].
  intros x Hx ->%list_elem_of_singleton. done.
Qed.

(** Position by position: a condition keeps its place and its type, and is
    either untouched or replaced by the new condition because its status
    differs from the new one. *)
Lemma loop_lookup condition cs (i : nat) old :
  cs !! i = Some old →
  ∃ new, updateCondition_loop condition cs !! i = Some new
         ∧ c_Type new = c_Type old
         ∧ (new = old ∨ (new = condition ∧ c_Status old ≠ c_Status condition)).
Proof.
  revert i. induction cs as [|c rest IH]; intros i Hi; [done|]. simpl.
  destruct (String.eqb (c_Type c) (c_Type condition)) eqn:Heq.
  - destruct (String.eqb (c_Status c) (c_Status condition)) eqn:Hst; simpl.
    + exists old. auto.
    + destruct i as [|i]; simpl in *.
      * injection Hi as <-. exists condition. split_and!; [done| |].
        { symmetry. by apply String.eqb_eq. }
        right. split; [done|]. by apply String.eqb_neq.
      * exists old. auto.
  - destruct i as [|i]; simpl in *.
    + exists old. auto.
    + by apply IH.
Qed.

Lemma loop_stops_unchanged condition cs c :
  List.find (fun c => String.eqb (c_Type c) (c_Type condition)) cs = Some c →
  c_Status c = c_Status condition →
  updateCondition_loop condition cs = cs.
Proof.
  induction cs as [|c0 rest IH]; simpl; [done|].
  destruct (String.eqb (c_Type c0) (c_Type condition)) eqn:Heq.
  - intros [= ->] Hst. rewrite Hst, String.eqb_refl. done.
  - intros Hf Hst. f_equal. by apply IH.
Qed.

Lemma apply_calls_NoDup cs app :
  NoDup (types_of app) → NoDup (types_of (apply_calls cs app)).
Proof.
  revert app. induction cs as [|c cs IH]; intros app Hnd; [done|].
  simpl. apply IH. unfold types_of, apply_call.
  rewrite Conditions_updateCondition. by apply loop_NoDup.
Qed.

(** C4. Along every sequence of [updateCondition] calls on a record whose
    conditions start out with pairwise different types (for instance with
    none), no type ever occurs twice; and at every call of the sequence each
    condition present keeps its place and type, and its [LastTransitionTime]
    changes if and only if its status changes (the clock reading of the call
    being different from the stamp it would replace).  A call that only
    brings a new reason or message therefore leaves the stamp alone. *)
Theorem updateCondition_unique_and_stamped (app : AppService) (cs : list setCondition) :
  NoDup (types_of app) →
  NoDup (types_of (apply_calls cs app))
  ∧ ∀ pre c post, cs = (pre ++ c :: post)%list →
      let before := apply_calls pre app in
      let after := apply_call before c in
      NoDup (types_of before) ∧ NoDup (types_of after)
      ∧ ∀ (i : nat) old,
          Conditions (app_Status before) !! i = Some old →
          sc_now c ≠ c_LastTransitionTime old →
          ∃ new, Conditions (app_Status after) !! i = Some new
                 ∧ c_Type new = c_Type old
                 ∧ (c_LastTransitionTime new ≠ c_LastTransitionTime old
                    ↔ c_Status new ≠ c_Status old).
Proof.
  intros Hnd. split; [by apply apply_calls_NoDup|].
  intros pre c post _ before after.
  assert (NoDup (types_of before)) as Hb by (by apply apply_calls_NoDup).
  split_and!; [done| |].
  - unfold after, types_of, apply_call. rewrite Conditions_updateCondition.
    by apply loop_NoDup.
  - intros i old Hold Hclock. unfold after, apply_call.
    rewrite Conditions_updateCondition.
    destruct (loop_lookup
                (mkCondition (sc_Type c) (sc_Status c) (sc_Reason c)
                             (sc_Message c) (sc_now c))
                _ i old Hold) as (new & Hnew & Hty & Hcase).
    exists new. split_and!; [done|done|].
    destruct Hcase as [->|[-> Hst]]; simpl in *.
    + split; intros H; by destruct H.
    + split; intros _; [by intros E; apply Hst|done].
Qed.

(** C10. When the condition the scan stops at (the first one of the given
    type) already has the new status, [updateCondition] returns the record as
    it was: the conditions sequence is the same, so neither the reason nor the
    message of that condition is refreshed, and no other condition changes. *)
Theorem updateCondition_same_status_unchanged
    (now : Time) (app : AppService) (condType : string)
    (status : ConditionStatus) (reason message : string) (c : Condition) :
  first_of_type condType app = Some c →
  c_Status c = status →
  updateCondition now app condType status reason message = app.
Proof.
  intros Hfind Hst. unfold updateCondition.
  rewrite (loop_stops_unchanged _ _ c); [apply with_Conditions_same|done|done].
Qed.

Lemma updateCondition_unique_and_stamped_witness :
  let app := scenario.record [] None 3 80 [] in
  NoDup (types_of app)
  ∧ ∃ new,
      Conditions (app_Status (apply_calls [ready_set; ready_reworded] app)) !! 0%nat
      = Some new
      ∧ c_Type new = "Ready"
      ∧ (c_LastTransitionTime new ≠ 1 ↔ c_Status new ≠ "True").
Proof.
  intros app.
  assert (NoDup (types_of app)) as Hnd by (vm_compute; constructor).
  split; [exact Hnd|].
  destruct (updateCondition_unique_and_stamped
              app [ready_set; ready_reworded; ready_lost] Hnd) as [_ Hcalls].
  destruct (Hcalls [ready_set] ready_reworded [ready_lost] eq_refl)
    as (_ & _ & Hstamp).
  refine (Hstamp 0%nat (mkCondition "Ready" "True" "A" "a" 1) eq_refl _).
  vm_compute. discriminate.
Defined.

Lemma updateCondition_same_status_unchanged_witness :
  let app := scenario.record [] None 3 80 [mkCondition "Ready" "True" "A" "a" 5] in
  updateCondition 9 app "Ready" "True" "B" "b" = app.
Proof.
  intros app.
  apply (updateCondition_same_status_unchanged
           9 app "Ready" "True" "B" "b" (mkCondition "Ready" "True" "A" "a" 5));
    reflexivity.
Defined.

End condition_facts.

(** ** The synthesized workload *)

Module synthesizer_facts.
Import controllers synthesizer.

Lemma nonempty_hint (a b : string) :
  a ≠ "" ∨ b ≠ "" → negb (String.eqb a "") || negb (String.eqb b "") = true.
Proof.
  intros [H|H]; apply String.eqb_neq in H; rewrite H; simpl; [done|].
  apply orb_true_r.
Qed.

(** C9. When at least one of the CPU and memory hints is non-empty, the
    container of the synthesized workload carries resource requirements whose
    requests and limits are both present and empty, and the workload is the
    same whatever the hint values are: they are not copied anywhere.  When
    both hints are empty, the requirements stay at the zero value (no
    requests map, no limits map). *)
Theorem deploymentForAppService_resource_hints
    (r : AppServiceReconciler) (app : AppService) :
  let hints := Resources (app_Spec app) in
  (CPU hints ≠ "" ∨ Memory hints ≠ "" →
     container_resources (deploymentForAppService r app)
     = [mkCoreResourceRequirements (Some ∅) (Some ∅)]
     ∧ ∀ other, CPU other ≠ "" ∨ Memory other ≠ "" →
         deploymentForAppService r (with_Resources other app)
         = deploymentForAppService r app)
  ∧ (CPU hints = "" ∧ Memory hints = "" →
     container_resources (deploymentForAppService r app)
     = [corev1_ResourceRequirements_zero]).
Proof.
  intros hints. subst hints. unfold container_resources, deploymentForAppService.
  split.
  - intros Hne. split.
    + rewrite (nonempty_hint _ _ Hne).
      unfold SetControllerReference.
      destruct (gvk_AppService (Scheme r)) as [[? ?]|];
        by destruct (Nat.ltb _ _).
    + intros other Hother. simpl.
      by rewrite (nonempty_hint _ _ Hne), (nonempty_hint _ _ Hother).
  - intros [Hcpu Hmem]. rewrite Hcpu, Hmem. simpl.
    unfold SetControllerReference.
    destruct (gvk_AppService (Scheme r)) as [[? ?]|];
      by destruct (Nat.ltb _ _).
Qed.

Lemma deploymentForAppService_resource_hints_witness :
  let hinted :=
    with_Resources (mkResourceRequirements "500m" "") (scenario.record [] None 3 80 []) in
  let plain := scenario.record [] None 3 80 [] in
  container_resources (deploymentForAppService scenario.r0 hinted)
  = [mkCoreResourceRequirements (Some ∅) (Some ∅)]
  ∧ deploymentForAppService scenario.r0
      (with_Resources (mkResourceRequirements "2" "1Gi") hinted)
    = deploymentForAppService scenario.r0 hinted
  ∧ container_resources (deploymentForAppService scenario.r0 plain)
    = [corev1_ResourceRequirements_zero].
Proof.
  intros hinted plain.
  destruct (deploymentForAppService_resource_hints scenario.r0 hinted) as [Hset _].
  destruct (deploymentForAppService_resource_hints scenario.r0 plain) as [_ Hunset].
  destruct Hset as [Hempty Hsame]; [left; discriminate|].
  split_and!.
  - exact Hempty.
  - apply (Hsame (mkResourceRequirements "2" "1Gi")). left; discriminate.
  - apply Hunset. split; reflexivity.
Defined.

End synthesizer_facts.

(** ** The accessor helpers *)

Module accessor_facts.
Import reconciler controllers store trace.

Lemma GetResourceVersion_Set {K : kind} (v : string) (o : Object K) :
  GetResourceVersion (SetResourceVersion v o) = v.
Proof. by destruct K. Qed.

Lemma ObjectKey_SetResourceVersion {K : kind} (v : string) (o : Object K) :
  ObjectKeyFromObject (SetResourceVersion v o) = ObjectKeyFromObject o.
Proof. by destruct K. Qed.

Lemma table_with_table (K : kind) t (s : Store) : table K (with_table K t s) = t.
Proof. by destruct K. Qed.

Lemma next_version_fresh (v : string) : String.eqb v (next_version v) = false.
Proof.
  apply String.eqb_neq. unfold next_version.
  induction v as [|a v IH]; [done|].
  intros [= -> Hv]. by apply IH.
Qed.

(** C8. [GetObject] returns a nil error when the store hands the object
    back, and also when the store answers not-found; in the second case the
    caller's object comes back as it went in.  The returned error is the
    same in both cases, so it does not tell absence from presence. *)
Theorem GetObject_nil_error_found_or_absent
    {K : kind} {W : Type} (h : handler W) (w w1 : W)
    (key : NamespacedName) (obj : Object K) (answer : error + Object K) :
  h (Get K key) w = (answer, w1) →
  (∀ found, answer = inr found →
     run h (GetObject key obj) w = ((None, found), w1, [Event (Get K key) answer]))
  ∧ (∀ err, answer = inl err → IsNotFound err = true →
     run h (GetObject key obj) w = ((None, obj), w1, [Event (Get K key) answer])).
Proof.
  intros Hget. split.
  - intros found ->. unfold GetObject. cbn. by rewrite Hget.
  - intros err -> Hnf. unfold GetObject. cbn. rewrite Hget. cbn. by rewrite Hnf.
Qed.

Lemma GetObject_nil_error_found_or_absent_witness :
  let app := scenario.record [] None 3 80 [] in
  let blank := mkAppService ObjectMeta_zero (app_Spec app) (app_Status app) in
  fst (fst (run api (GetObject (K := KAppService) scenario.key_a blank)
                (scenario.store_of app None None)))
  = (None, app)
  ∧ fst (fst (run api (GetObject (K := KAppService) (mkNamespacedName "default" "b") blank)
                  (scenario.store_of app None None)))
    = (None, blank).
Proof.
  intros app blank. split.
  - destruct (@GetObject_nil_error_found_or_absent KAppService Store
                api (scenario.store_of app None None) (scenario.store_of app None None)
                scenario.key_a blank (inr app) eq_refl) as [Hfound _].
    by rewrite (Hfound app eq_refl).
  - destruct (@GetObject_nil_error_found_or_absent KAppService Store
                api (scenario.store_of app None None) (scenario.store_of app None None)
                (mkNamespacedName "default" "b") blank
                (inl (StatusError ReasonNotFound)) eq_refl) as [_ Habsent].
    by rewrite (Habsent (StatusError ReasonNotFound) eq_refl eq_refl).
Defined.

(** C6. [CreateOrUpdate] first fetches the object stored under the key of
    its argument.  When the store answers not-found, it asks to create the
    argument as it is; when the store hands an existing object back, it
    copies that object's version stamp onto the argument and asks to update
    with it; any other error of the fetch is returned.  Against a store that
    checks version stamps, a write by someone else between the fetch and the
    update makes the update fail with a conflict, and the store keeps the
    other writer's object. *)
Theorem CreateOrUpdate_read_modify_write {K : kind} (obj : Object K) :
  let key := ObjectKeyFromObject obj in
  (∀ (W : Type) (h : handler W) (w w1 : W) (fetched : error + Object K),
     h (Get K key) w = (fetched, w1) →
     match fetched with
     | inl err =>
         if IsNotFound err then
           ∀ answer w2, h (Create K obj) w1 = (answer, w2) →
             run h (CreateOrUpdate obj) w
             = (error_of answer, w2,
                [Event (Get K key) fetched; Event (Create K obj) answer])
         else
           run h (CreateOrUpdate obj) w = (Some err, w1, [Event (Get K key) fetched])
     | inr existing =>
         let stamped := SetResourceVersion (GetResourceVersion existing) obj in
         ∀ answer w2, h (Update K stamped) w1 = (answer, w2) →
           run h (CreateOrUpdate obj) w
           = (error_of answer, w2,
              [Event (Get K key) fetched; Event (Update K stamped) answer])
     end)
  ∧ (∀ (s : Store) (existing theirs : Object K),
       table K s !! key = Some existing →
       ObjectKeyFromObject theirs = key →
       GetResourceVersion theirs = GetResourceVersion existing →
       let other := fun s => snd (api (Update K theirs) s) in
       ∃ s' tr,
         run (with_interference api other) (CreateOrUpdate obj) (s, true)
         = (Some (StatusError ReasonConflict), (s', false), tr)
         ∧ table K s' !! key
           = Some (SetResourceVersion (next_version (GetResourceVersion theirs)) theirs)).
Proof.
  intros key. split.
  - intros W h w w1 fetched Hget. unfold CreateOrUpdate. fold key.
    destruct fetched as [err|existing].
    + destruct (IsNotFound err) eqn:Hnf.
      * intros answer w2 Hcreate. cbn. rewrite Hget. cbn. rewrite Hnf. cbn.
        rewrite Hcreate. by destruct answer.
      * cbn. rewrite Hget. cbn. by rewrite Hnf.
    + intros answer w2 Hupdate. cbn. rewrite Hget. cbn.
      rewrite Hupdate. by destruct answer.
  - intros s existing theirs Hcur Hkey Hrv other.
    unfold CreateOrUpdate. fold key. cbn. rewrite Hcur.
    assert (other s
            = with_table K
                (<[key := SetResourceVersion (next_version (GetResourceVersion theirs))
                                             theirs]> (table K s)) s) as ->.
    { unfold other. cbn. rewrite Hkey, Hcur, Hrv, String.eqb_refl.
      unfold write. cbn. by rewrite Hkey, Hrv. }
    cbn. rewrite ObjectKey_SetResourceVersion. fold key.
    rewrite table_with_table, lookup_insert_eq.
    rewrite !GetResourceVersion_Set, Hrv, next_version_fresh.
    eexists _, _. split; [reflexivity|].
    by rewrite table_with_table, lookup_insert_eq.
Qed.

Lemma CreateOrUpdate_read_modify_write_witness :
  let app := scenario.record [] None 3 80 [] in
  let existing := SetResourceVersion (K := KDeployment) "7" (scenario.workload app 3) in
  let s := scenario.store_of app (Some existing) None in
  let mine := with_dep_Replicas (Some 5) (deploymentForAppService scenario.r0 app) in
  let theirs := with_dep_Replicas (Some 4) existing in
  let other := fun s => snd (api (Update KDeployment theirs) s) in
  fst (fst (run api (CreateOrUpdate (K := KDeployment) mine) s)) = None
  ∧ fst (fst (run (with_interference api other)
                  (CreateOrUpdate (K := KDeployment) mine) (s, true)))
    = Some (StatusError ReasonConflict).
Proof.
  intros app existing s mine theirs other.
  destruct (@CreateOrUpdate_read_modify_write KDeployment mine) as [Hcalls Hrace].
  split.
  - pose proof (Hcalls Store api s s (inr existing)
                  ltac:(vm_compute; reflexivity)) as Hupdate.
    cbn beta iota in Hupdate.
    by rewrite (Hupdate _ _ ltac:(vm_compute; reflexivity)).
  - destruct (Hrace s existing theirs
                ltac:(vm_compute; reflexivity) eq_refl eq_refl)
      as (s' & tr & Hrun & _).
    unfold other. by rewrite Hrun.
Defined.

End accessor_facts.

(** ** The reconcile pass *)

Module reconcile_facts.
Import reconciler controllers store trace conditions.

Lemma ContainsFinalizer_AddFinalizer (o : AppService) (f : string) :
  ContainsFinalizer (AddFinalizer o f) f = true.
Proof.
  unfold AddFinalizer. destruct (ContainsFinalizer o f) eqn:Hc; [done|].
  unfold ContainsFinalizer, with_Finalizers. simpl.
  rewrite existsb_app. simpl. rewrite String.eqb_refl. apply orb_true_r.
Qed.

Lemma ContainsFinalizer_RemoveFinalizer (o : AppService) (f : string) :
  ContainsFinalizer (RemoveFinalizer o f) f = false.
Proof.
  unfold ContainsFinalizer, RemoveFinalizer, with_Finalizers. simpl.
  induction (Finalizers (app_ObjectMeta o)) as [|g fs IH]; [done|].
  simpl. destruct (String.eqb g f) eqn:Hg; simpl; [done|].
  rewrite IH. rewrite String.eqb_sym, Hg. done.
Qed.

(** C5. A pass that finds the record with a deletion timestamp and the
    finalizer makes exactly two calls: the fetch of the record and the update
    that sends it back without the finalizer (cleanup itself makes no call).
    When the store accepts that update the pass returns the empty result and
    no error.  No call of the pass concerns a workload or an endpoint. *)
Theorem Reconcile_deleting_removes_finalizer
    {W : Type} (h : handler W) (w w1 w2 : W)
    (r : AppServiceReconciler) (req : NamespacedName) (app stored : AppService) :
  h (Get KAppService req) w = (inr app, w1) →
  IsZero (DeletionTimestamp (app_ObjectMeta app)) = false →
  ContainsFinalizer app finalizer = true →
  h (Update KAppService (RemoveFinalizer app finalizer)) w1 = (inr stored, w2) →
  let tr := [Event (Get KAppService req) (inr app);
             Event (Update KAppService (RemoveFinalizer app finalizer)) (inr stored)] in
  run h (Reconcile r req) w = (Returned Done None, w2, tr)
  ∧ ContainsFinalizer (RemoveFinalizer app finalizer) finalizer = false
  ∧ List.filter dependent (calls tr) = [].
Proof.
  intros Hget Hdel Hfin Hupd tr. split_and!.
  - unfold Reconcile. cbn. rewrite Hget. cbn. rewrite Hdel, Hfin. cbn.
    rewrite Hupd. reflexivity.
  - apply ContainsFinalizer_RemoveFinalizer.
  - reflexivity.
Qed.

Lemma Reconcile_deleting_removes_finalizer_witness :
  let app := scenario.record [finalizer] (Some 50) 3 80 [] in
  let s := scenario.store_of app None None in
  fst (fst (run api (Reconcile scenario.r0 scenario.key_a) s)) = Returned Done None
  ∧ calls (snd (run api (Reconcile scenario.r0 scenario.key_a) s))
    = [Get KAppService scenario.key_a;
       Update KAppService (RemoveFinalizer app finalizer)].
Proof.
  intros app s.
  destruct (api (Update KAppService (RemoveFinalizer app finalizer)) s)
    as [answer s2] eqn:Hupd.
  assert (∃ stored, answer = inr stored) as [stored ->].
  { vm_compute in Hupd. injection Hupd as <- _. eauto. }
  destruct (Reconcile_deleting_removes_finalizer
              api s s s2 scenario.r0 scenario.key_a app stored
              ltac:(vm_compute; reflexivity) eq_refl eq_refl Hupd)
    as (Hrun & _ & _).
  rewrite Hrun. split; reflexivity.
Defined.

(** Runs a pass symbolically: every answer of the store and every test of
    the pass is split into its cases. *)
Ltac pass_cases h H :=
  unfold Reconcile in H; cbn in H;
  repeat (first
    [ match type of H with
      | context [h ?c ?w] =>
          let r := fresh "answer" in
          let w' := fresh "w" in
          destruct (h c w) as [r w'] eqn:?; cbn in r
      end
    | match type of H with
      | context [match ?x with _ => _ end] =>
          lazymatch x with
          | run _ _ _ => fail
          | match _ with _ => _ end => fail
          | _ => destruct x eqn:?
          end
      end ]; cbn in H).



Lemma loop_first condition cs :
  ∃ c, List.find (fun c => String.eqb (c_Type c) (c_Type condition))
                 (updateCondition_loop condition cs) = Some c
       ∧ c_Status c = c_Status condition.
Proof.
  induction cs as [|c0 rest IH]; simpl.
  - rewrite String.eqb_refl. eauto.
  - destruct (String.eqb (c_Type c0) (c_Type condition)) eqn:Hty.
    + destruct (String.eqb (c_Status c0) (c_Status condition)) eqn:Hst; simpl.
      * rewrite Hty. apply String.eqb_eq in Hst. eauto.
      * rewrite String.eqb_refl. eauto.
    + simpl. rewrite Hty. exact IH.
Qed.

(** C2, as the code has it. The record a pass sends to the status
    subresource, when the fetched workload's available replica count equals
    the record's replica count, has phase "Running" (the code never writes
    "Ready" as a phase), carries the workload's available count, and the
    first condition of type Ready in it has status True. *)
Theorem Reconcile_all_available_running
    {W : Type} (h : handler W) (w w' : W)
    (r : AppServiceReconciler) (req : NamespacedName)
    (out : outcome) (tr : list event) (a : AppService) (dep : Deployment) :
  run h (Reconcile r req) w = (out, w', tr) →
  In a (omap status_write tr) →
  In dep (omap workload_read tr) →
  dep_AvailableReplicas (dep_Status dep) = Replicas (app_Spec a) →
  Phase (app_Status a) = "Running"
  ∧ AvailableReplicas (app_Status a) = dep_AvailableReplicas (dep_Status dep)
  ∧ ∃ c, first_of_type "Ready" a = Some c ∧ c_Status c = ConditionTrue.
Proof.
  intros Hrun Ha Hdep Havail.
  pass_cases h Hrun.
  all: injection Hrun as <- <- <-.
  all: cbn in Ha, Hdep.
  all: try contradiction.
  all: destruct Hdep as [<-|[]]; destruct Ha as [<-|[]].
  all: cbn in Havail.
  all: try (exfalso;
            match goal with
            | Heq : (_ =? _) = false |- _ =>
                apply Z.eqb_neq in Heq; contradiction
            end).
  all: split_and!; [reflexivity|reflexivity|].
  all: unfold first_of_type; rewrite condition_facts.Conditions_updateCondition;
    apply (loop_first (mkCondition "Ready" ConditionTrue _ _ _)).
Qed.

Lemma Reconcile_all_available_running_witness :
  ∃ a, omap status_write
         (snd (run api (Reconcile scenario.r0 scenario.key_a) scenario.settled_store))
       = [a]
       ∧ Phase (app_Status a) = "Running"
       ∧ ∃ c, first_of_type "Ready" a = Some c ∧ c_Status c = ConditionTrue.
Proof.
  set (res := run api (Reconcile scenario.r0 scenario.key_a) scenario.settled_store).
  assert (res = (fst (fst res), snd (fst res), snd res)) as Hrun
    by (by destruct res as [[? ?] ?]).
  assert (∃ a, omap status_write (snd res) = [a]
               ∧ Replicas (app_Spec a) = 3) as (a & Hwritten & Hspec).
  { vm_compute. eexists. split; reflexivity. }
  exists a. split; [exact Hwritten|].
  destruct (Reconcile_all_available_running
              api scenario.settled_store (snd (fst res)) scenario.r0 scenario.key_a
              (fst (fst res)) (snd res) a
              (scenario.workload scenario.settled_record 3) Hrun)
    as (Hphase & _ & Hready).
  - rewrite Hwritten. left. reflexivity.
  - vm_compute. left. reflexivity.
  - rewrite Hspec. reflexivity.
  - split; assumption.
Defined.

(** C2 as the claim words it fails: with all three replicas available, the
    status the pass writes has phase "Running", which is not "Ready". *)
Lemma Reconcile_ready_phase_counterexample :
  ∃ a dep,
    omap status_write
      (snd (run api (Reconcile scenario.r0 scenario.key_a) scenario.settled_store))
    = [a]
    ∧ omap workload_read
        (snd (run api (Reconcile scenario.r0 scenario.key_a) scenario.settled_store))
      = [dep]
    ∧ dep_AvailableReplicas (dep_Status dep) = Replicas (app_Spec a)
    ∧ Phase (app_Status a) = "Running"
    ∧ Phase (app_Status a) ≠ "Ready".
Proof.
  vm_compute. eexists _, _. split_and!; try reflexivity. discriminate.
Qed.




(** C1, as the code has it. A pass that finds the record without a deletion
    timestamp and without the finalizer sends the record with the finalizer
    added.  When the store refuses, the pass returns that error after these
    two calls.  When the store accepts, the pass does not return: it goes on,
    in the same pass and with the copy the store handed back, to fetch the
    workload under the record's key. *)
Theorem Reconcile_adds_finalizer_and_goes_on
    {W : Type} (h : handler W) (w w1 w2 : W)
    (r : AppServiceReconciler) (req : NamespacedName)
    (app : AppService) (answer : error + AppService) :
  h (Get KAppService req) w = (inr app, w1) →
  IsZero (DeletionTimestamp (app_ObjectMeta app)) = true →
  ContainsFinalizer app finalizer = false →
  h (Update KAppService (AddFinalizer app finalizer)) w1 = (answer, w2) →
  ContainsFinalizer (AddFinalizer app finalizer) finalizer = true
  ∧ match answer with
    | inl err =>
        run h (Reconcile r req) w
        = (Returned Done (Some err), w2,
           [Event (Get KAppService req) (inr app);
            Event (Update KAppService (AddFinalizer app finalizer)) (inl err)])
    | inr stored =>
        ∃ out w' fetched rest,
          run h (Reconcile r req) w
          = (out, w',
             Event (Get KAppService req) (inr app)
             :: Event (Update KAppService (AddFinalizer app finalizer)) (inr stored)
             :: Event (Get KDeployment (keyOf stored)) fetched
             :: rest)
    end.
Proof.
  intros Hget Hlive Hfin Hupd.
  split; [apply ContainsFinalizer_AddFinalizer|].
  unfold Reconcile. cbn. rewrite Hget. cbn. rewrite Hlive, Hfin. cbn.
  rewrite Hupd. destruct answer as [err|stored]; cbn; [reflexivity|].
  destruct (h (Get KDeployment (keyOf stored)) w2) as [fetched w3].
  match goal with
  | |- context [run h ?p w3] => destruct (run h p w3) as [[out w'] rest]
  end.
  eexists _, _, _, _. reflexivity.
Qed.

Lemma Reconcile_adds_finalizer_and_goes_on_witness :
  ∃ out s' fetched rest,
    run api (Reconcile scenario.r0 scenario.key_a) scenario.fresh_store
    = (out, s',
       Event (Get KAppService scenario.key_a) (inr scenario.fresh_record)
       :: Event (Update KAppService (AddFinalizer scenario.fresh_record finalizer))
                (inr (SetResourceVersion (K := KAppService) "+1"
                        (AddFinalizer scenario.fresh_record finalizer)))
       :: Event (Get KDeployment scenario.key_a) fetched
       :: rest).
Proof.
  destruct (Reconcile_adds_finalizer_and_goes_on
              api scenario.fresh_store scenario.fresh_store
              (snd (api (Update KAppService
                           (AddFinalizer scenario.fresh_record finalizer))
                        scenario.fresh_store))
              scenario.r0 scenario.key_a scenario.fresh_record
              (inr (SetResourceVersion (K := KAppService) "+1"
                      (AddFinalizer scenario.fresh_record finalizer)))
              ltac:(vm_compute; reflexivity) eq_refl eq_refl
              ltac:(vm_compute; reflexivity))
    as [_ Hgo].
  exact Hgo.
Defined.

(** C1 as the claim words it fails. On a record just created, the pass that
    adds the finalizer also fetches the workload and, not finding it, asks
    the store to create it, all in the same pass. *)
Lemma Reconcile_finalizer_pass_stops_counterexample :
  IsZero (DeletionTimestamp (app_ObjectMeta scenario.fresh_record)) = true
  ∧ ContainsFinalizer scenario.fresh_record finalizer = false
  ∧ calls (snd (run api (Reconcile scenario.r0 scenario.key_a) scenario.fresh_store))
    = [Get KAppService scenario.key_a;
       Update KAppService (AddFinalizer scenario.fresh_record finalizer);
       Get KDeployment scenario.key_a;
       Create KDeployment
         (deploymentForAppService scenario.r0
            (SetResourceVersion (K := KAppService) "+1"
               (AddFinalizer scenario.fresh_record finalizer)))]
  ∧ List.filter dependent
      (calls (snd (run api (Reconcile scenario.r0 scenario.key_a)
                       scenario.fresh_store)))
    ≠ [].
Proof.
  split_and!; [reflexivity | reflexivity | vm_compute; reflexivity |].
  vm_compute. discriminate.
Qed.

End reconcile_facts.

(** ** More about the reconcile pass *)

Module reconcile_more.
Import reconciler controllers store trace conditions reconcile_facts.

(** X1. When the fetch of the record fails, the pass makes no other call.
    A not-found ends the pass with the empty result and no error (the record
    is gone, nothing to do); any other error is returned with the empty
    result. *)
Theorem Reconcile_record_fetch_fails
    {W : Type} (h : handler W) (w w1 : W)
    (r : AppServiceReconciler) (req : NamespacedName) (err : error) :
  h (Get KAppService req) w = (inl err, w1) →
  run h (Reconcile r req) w
  = (Returned Done (if IsNotFound err then None else Some err), w1,
     [Event (Get KAppService req) (inl err)]).
Proof.
  intros Hget. unfold Reconcile. cbn. rewrite Hget. cbn.
  by destruct (IsNotFound err).
Qed.

Lemma Reconcile_record_fetch_fails_witness :
  run api (Reconcile scenario.r0 (mkNamespacedName "default" "gone"))
      scenario.fresh_store
  = (Returned Done None, scenario.fresh_store,
     [Event (Get KAppService (mkNamespacedName "default" "gone"))
            (inl (StatusError ReasonNotFound))]).
Proof.
  apply (Reconcile_record_fetch_fails
           api scenario.fresh_store scenario.fresh_store scenario.r0
           (mkNamespacedName "default" "gone") (StatusError ReasonNotFound)).
  vm_compute. reflexivity.
Defined.

(** X2. A record that is being deleted and no longer carries the finalizer
    is left alone: the pass makes the fetch and nothing else, and returns the
    empty result and no error. *)
Theorem Reconcile_deleting_without_finalizer
    {W : Type} (h : handler W) (w w1 : W)
    (r : AppServiceReconciler) (req : NamespacedName) (app : AppService) :
  h (Get KAppService req) w = (inr app, w1) →
  IsZero (DeletionTimestamp (app_ObjectMeta app)) = false →
  ContainsFinalizer app finalizer = false →
  run h (Reconcile r req) w
  = (Returned Done None, w1, [Event (Get KAppService req) (inr app)]).
Proof.
  intros Hget Hdel Hfin. unfold Reconcile. cbn. rewrite Hget. cbn.
  by rewrite Hdel, Hfin.
Qed.

Lemma Reconcile_deleting_without_finalizer_witness :
  run api (Reconcile scenario.r0 scenario.key_a)
      (scenario.store_of (scenario.record [] (Some 50) 3 80 []) None None)
  = (Returned Done None,
     scenario.store_of (scenario.record [] (Some 50) 3 80 []) None None,
     [Event (Get KAppService scenario.key_a)
            (inr (scenario.record [] (Some 50) 3 80 []))]).
Proof.
  apply (Reconcile_deleting_without_finalizer
           api _ _ scenario.r0 scenario.key_a
           (scenario.record [] (Some 50) 3 80 []));
    [vm_compute; reflexivity | reflexivity | reflexivity].
Defined.

(** X3. Whenever a pass asks the store to create a workload, the workload
    is the one synthesized from the record the pass holds, the pass makes no
    call about the endpoint and writes no status, the creation is the last
    call of the pass, and the pass returns an immediate requeue when the
    store accepted the creation and, with the empty result, the error the
    store answered the creation with otherwise. *)
Theorem Reconcile_creates_synthesized_workload
    {W : Type} (h : handler W) (w w' : W)
    (r : AppServiceReconciler) (req : NamespacedName)
    (out : outcome) (tr : list event) (app : AppService) (d : Deployment) :
  run h (Reconcile r req) w = (out, w', tr) →
  held_record tr = Some app →
  In d (omap created_workload (calls tr)) →
  d = deploymentForAppService r app
  ∧ List.filter (touches KService) (calls tr) = []
  ∧ omap status_write tr = []
  ∧ ∃ answer : error + Deployment,
      last tr = Some (Event (Create KDeployment d) answer)
      ∧ out = match answer with
              | inr _ => Returned Requeue_ None
              | inl e => Returned Done (Some e)
              end.
Proof.
  intros Hrun Hheld Hd.
  pass_cases h Hrun.
  all: injection Hrun as <- <- <-.
  all: cbn in Hheld, Hd.
  all: try contradiction.
  all: destruct Hd as [<-|[]]; injection Hheld as <-.
  all: split_and!; try reflexivity.
  all: eexists; split; reflexivity.
Qed.

Lemma Reconcile_creates_synthesized_workload_witness :
  omap created_workload
    (calls (snd (run api (Reconcile scenario.r0 scenario.key_a)
                     scenario.negative_store)))
  = [deploymentForAppService scenario.r0 scenario.negative_record]
  ∧ omap status_write
      (snd (run api (Reconcile scenario.r0 scenario.key_a) scenario.negative_store))
    = [].
Proof.
  set (res := run api (Reconcile scenario.r0 scenario.key_a) scenario.negative_store).
  assert (res = (fst (fst res), snd (fst res), snd res)) as Hrun
    by (by destruct res as [[? ?] ?]).
  assert (∃ d, omap created_workload (calls (snd res)) = [d]) as [d Hd]
    by (vm_compute; eauto).
  destruct (Reconcile_creates_synthesized_workload
              api scenario.negative_store (snd (fst res)) scenario.r0
              scenario.key_a (fst (fst res)) (snd res)
              scenario.negative_record d Hrun)
    as (-> & _ & Hstatus & _).
  - vm_compute. reflexivity.
  - rewrite Hd. left. reflexivity.
  - split; assumption.
Defined.

(** X4. Whenever a pass asks the store to create an endpoint, the endpoint
    is the one synthesized from the record the pass holds; the pass has
    fetched a workload whose replica count already equals the record's, it
    writes nothing to the workload and no status, the creation is the last
    call of the pass, and the pass returns an immediate requeue when the
    store accepted the creation and, with the empty result, the error the
    store answered the creation with otherwise. *)
Theorem Reconcile_creates_synthesized_endpoint
    {W : Type} (h : handler W) (w w' : W)
    (r : AppServiceReconciler) (req : NamespacedName)
    (out : outcome) (tr : list event) (app : AppService) (v : Service) :
  run h (Reconcile r req) w = (out, w', tr) →
  held_record tr = Some app →
  In v (omap created_endpoint (calls tr)) →
  v = serviceForAppService r app
  ∧ (∃ dep, omap workload_read tr = [dep]
            ∧ dep_Replicas (dep_Spec dep) = Some (Replicas (app_Spec app)))
  ∧ List.filter (fun c => touches KDeployment c && mutates c) (calls tr) = []
  ∧ omap status_write tr = []
  ∧ ∃ answer : error + Service,
      last tr = Some (Event (Create KService v) answer)
      ∧ out = match answer with
              | inr _ => Returned Requeue_ None
              | inl e => Returned Done (Some e)
              end.
Proof.
  intros Hrun Hheld Hv.
  pass_cases h Hrun.
  all: injection Hrun as <- <- <-.
  all: cbn in Hheld, Hv.
  all: try contradiction.
  all: destruct Hv as [<-|[]]; injection Hheld as <-.
  all: match goal with
       | Heq : negb (_ =? _) = false |- _ =>
           apply negb_false_iff, Z.eqb_eq in Heq; subst
       end.
  all: split_and!; try reflexivity.
  all: cbn; eauto 6.
  all: eexists; split; reflexivity.
Qed.

Lemma Reconcile_creates_synthesized_endpoint_witness :
  omap created_endpoint
    (calls (snd (run api (Reconcile scenario.r0 scenario.key_a)
                     (scenario.store_of scenario.settled_record
                        (Some (scenario.workload scenario.settled_record 0)) None))))
  = [serviceForAppService scenario.r0 scenario.settled_record].
Proof.
  set (s := scenario.store_of scenario.settled_record
              (Some (scenario.workload scenario.settled_record 0)) None).
  set (res := run api (Reconcile scenario.r0 scenario.key_a) s).
  assert (res = (fst (fst res), snd (fst res), snd res)) as Hrun
    by (by destruct res as [[? ?] ?]).
  assert (∃ v, omap created_endpoint (calls (snd res)) = [v]) as [v Hv]
    by (vm_compute; eauto).
  destruct (Reconcile_creates_synthesized_endpoint
              api s (snd (fst res)) scenario.r0 scenario.key_a
              (fst (fst res)) (snd res) scenario.settled_record v Hrun)
    as (-> & _).
  - vm_compute. reflexivity.
  - rewrite Hv. left. reflexivity.
  - exact Hv.
Defined.

(** X5. The record a pass sends to the status subresource, when the fetched
    workload's available replica count differs from the record's replica
    count, has phase "Pending", carries the workload's available count, and
    the first condition of type Ready in it has status False. *)
Theorem Reconcile_not_all_available_pending
    {W : Type} (h : handler W) (w w' : W)
    (r : AppServiceReconciler) (req : NamespacedName)
    (out : outcome) (tr : list event) (a : AppService) (dep : Deployment) :
  run h (Reconcile r req) w = (out, w', tr) →
  In a (omap status_write tr) →
  In dep (omap workload_read tr) →
  dep_AvailableReplicas (dep_Status dep) ≠ Replicas (app_Spec a) →
  Phase (app_Status a) = "Pending"
  ∧ AvailableReplicas (app_Status a) = dep_AvailableReplicas (dep_Status dep)
  ∧ ∃ c, first_of_type "Ready" a = Some c ∧ c_Status c = ConditionFalse.
Proof.
  intros Hrun Ha Hdep Havail.
  pass_cases h Hrun.
  all: injection Hrun as <- <- <-.
  all: cbn in Ha, Hdep.
  all: try contradiction.
  all: destruct Hdep as [<-|[]]; destruct Ha as [<-|[]].
  all: cbn in Havail.
  all: try (exfalso;
            match goal with
            | Heq : (_ =? _) = true |- _ =>
                apply Z.eqb_eq in Heq; contradiction
            end).
  all: split_and!; [reflexivity|reflexivity|].
  all: unfold first_of_type; rewrite condition_facts.Conditions_updateCondition;
    apply (loop_first (mkCondition "Ready" ConditionFalse _ _ _)).
Qed.

Lemma Reconcile_not_all_available_pending_witness :
  ∃ a, omap status_write
         (snd (run api (Reconcile scenario.r0 scenario.key_a)
                   (scenario.store_of scenario.settled_record
                      (Some (scenario.workload scenario.settled_record 0))
                      (Some (scenario.endpoint scenario.settled_record)))))
       = [a]
       ∧ Phase (app_Status a) = "Pending".
Proof.
  set (s := scenario.store_of scenario.settled_record
              (Some (scenario.workload scenario.settled_record 0))
              (Some (scenario.endpoint scenario.settled_record))).
  set (res := run api (Reconcile scenario.r0 scenario.key_a) s).
  assert (res = (fst (fst res), snd (fst res), snd res)) as Hrun
    by (by destruct res as [[? ?] ?]).
  assert (∃ a, omap status_write (snd res) = [a]
               ∧ Replicas (app_Spec a) = 3) as (a & Hwritten & Hspec)
    by (vm_compute; eexists; split; reflexivity).
  exists a. split; [exact Hwritten|].
  destruct (Reconcile_not_all_available_pending
              api s (snd (fst res)) scenario.r0 scenario.key_a
              (fst (fst res)) (snd res) a
              (scenario.workload scenario.settled_record 0) Hrun)
    as (Hphase & _).
  - rewrite Hwritten. left. reflexivity.
  - vm_compute. left. reflexivity.
  - rewrite Hspec. discriminate.
  - exact Hphase.
Defined.

(** X6. What a pass can return.  An error never comes with a requeue
    request: the result beside an error is empty.  Without an error the
    result is empty, an immediate requeue, or a requeue after 30 seconds; and
    the pass returns the 30 second requeue exactly when it wrote status and
    the store refused none of its calls. *)
Theorem Reconcile_results
    {W : Type} (h : handler W) (w w' : W)
    (r : AppServiceReconciler) (req : NamespacedName)
    (tr : list event) (res : Result) (err : option error) :
  run h (Reconcile r req) w = (Returned res err, w', tr) →
  (err ≠ None → res = Done)
  ∧ (err = None →
     res = Done ∨ res = Requeue_ ∨ res = RequeueAfter_ (30 * Second))
  ∧ (res = RequeueAfter_ (30 * Second) ∧ err = None
     ↔ omap status_write tr ≠ [] ∧ failures tr = []).
Proof.
  intros Hrun.
  pass_cases h Hrun.
  all: simplify_eq.
  all: split_and!; [by eauto | by eauto |].
  all: cbn; split; intros [? ?]; try discriminate; try done.
Qed.

(** X7. A pass converges one step at a time: it makes at most one write to
    the dependent resources, and a pass that writes a dependent resource
    writes no status (so status is only written by a pass that found both
    dependents in place and the replica count right). *)
Theorem Reconcile_one_dependent_write
    {W : Type} (h : handler W) (w w' : W)
    (r : AppServiceReconciler) (req : NamespacedName)
    (out : outcome) (tr : list event) :
  run h (Reconcile r req) w = (out, w', tr) →
  (length (List.filter (fun c => dependent c && mutates c) (calls tr)) ≤ 1)%nat
  ∧ (List.filter (fun c => dependent c && mutates c) (calls tr) ≠ [] →
     omap status_write tr = [])
  ∧ (length (omap status_write tr) ≤ 1)%nat.
Proof.
  intros Hrun.
  pass_cases h Hrun.
  all: injection Hrun as <- <- <-.
  all: cbn; split_and!; try lia; try done.
Qed.

(** X9. A pass ends in a panic exactly when the store hands back a workload
    whose replica pointer is nil; such a pass has written nothing to the
    dependent resources and no status. *)
Theorem Reconcile_panics_on_nil_replicas
    {W : Type} (h : handler W) (w w' : W)
    (r : AppServiceReconciler) (req : NamespacedName)
    (out : outcome) (tr : list event) :
  run h (Reconcile r req) w = (out, w', tr) →
  (out = Panicked
   ↔ ∃ dep, In dep (omap workload_read tr) ∧ dep_Replicas (dep_Spec dep) = None)
  ∧ (out = Panicked →
     List.filter (fun c => dependent c && mutates c) (calls tr) = []
     ∧ omap status_write tr = []).
Proof.
  intros Hrun.
  pass_cases h Hrun.
  all: injection Hrun as <- <- <-.
  all: cbn; split_and!; try done.
  all: split; try done.
  all: try (intros (dep & Hin & Hnil); destruct_or?; try contradiction;
            subst; congruence).
  all: intros _; eexists; split; [by left | done].
Qed.

(** X10. A pass on a live record that already carries the finalizer sends
    no update of the record: the finalizer is never added twice. *)
Theorem Reconcile_finalizer_present_no_record_update
    {W : Type} (h : handler W) (w w' w1 : W)
    (r : AppServiceReconciler) (req : NamespacedName)
    (out : outcome) (tr : list event) (app : AppService) :
  h (Get KAppService req) w = (inr app, w1) →
  IsZero (DeletionTimestamp (app_ObjectMeta app)) = true →
  ContainsFinalizer app finalizer = true →
  run h (Reconcile r req) w = (out, w', tr) →
  omap record_update (calls tr) = []
  ∧ ∀ a, In a (omap status_write tr) →
         Finalizers (app_ObjectMeta a) = Finalizers (app_ObjectMeta app).
Proof.
  intros Hget Hlive Hfin Hrun.
  pass_cases h Hrun.
  all: injection Hrun as <- <- <-.
  all: simplify_eq.
  all: try (rewrite Hfin in *; discriminate).
  all: try congruence.
  all: cbn; split; [reflexivity|].
  all: intros a Ha; destruct_or?; try contradiction; by subst.
Qed.

Lemma run_eta {W A : Type} (res : A * W * list event) :
  res = (fst (fst res), snd (fst res), snd res).
Proof. by destruct res as [[? ?] ?]. Qed.

Lemma Reconcile_results_witness :
  fst (fst (run api (Reconcile scenario.r0 scenario.key_a) scenario.settled_store))
  = Returned (RequeueAfter_ (30 * Second)) None.
Proof.
  set (res := run api (Reconcile scenario.r0 scenario.key_a) scenario.settled_store).
  assert (∃ result err, fst (fst res) = Returned result err)
    as (result & err & Hout) by (vm_compute; eauto).
  pose proof (run_eta res) as Hrun. rewrite Hout in Hrun.
  destruct (Reconcile_results api scenario.settled_store (snd (fst res))
              scenario.r0 scenario.key_a (snd res) result err Hrun)
    as (_ & _ & Hdelayed).
  destruct (proj2 Hdelayed) as [-> ->]; [|exact Hout].
  split; [vm_compute; discriminate | vm_compute; reflexivity].
Defined.

Lemma Reconcile_one_dependent_write_witness :
  (length (List.filter (fun c => dependent c && mutates c)
             (calls (snd (run api (Reconcile scenario.r0 scenario.key_a)
                              scenario.fresh_store)))) ≤ 1)%nat
  ∧ omap status_write
      (snd (run api (Reconcile scenario.r0 scenario.key_a) scenario.fresh_store))
    = [].
Proof.
  set (res := run api (Reconcile scenario.r0 scenario.key_a) scenario.fresh_store).
  destruct (Reconcile_one_dependent_write
              api scenario.fresh_store (snd (fst res)) scenario.r0 scenario.key_a
              (fst (fst res)) (snd res) (run_eta res))
    as (Hone & Hquiet & _).
  split; [exact Hone|]. apply Hquiet. vm_compute. discriminate.
Defined.

Lemma Reconcile_panics_on_nil_replicas_witness :
  fst (fst (run api (Reconcile scenario.r0 scenario.key_a)
                (scenario.store_of scenario.settled_record
                   (Some (with_dep_Replicas None
                            (scenario.workload scenario.settled_record 3)))
                   None)))
  = Panicked.
Proof.
  set (s := scenario.store_of scenario.settled_record
              (Some (with_dep_Replicas None
                       (scenario.workload scenario.settled_record 3)))
              None).
  set (res := run api (Reconcile scenario.r0 scenario.key_a) s).
  destruct (Reconcile_panics_on_nil_replicas
              api s (snd (fst res)) scenario.r0 scenario.key_a
              (fst (fst res)) (snd res) (run_eta res))
    as (Hiff & _).
  apply Hiff.
  exists (with_dep_Replicas None (scenario.workload scenario.settled_record 3)).
  split; [vm_compute; left; reflexivity | reflexivity].
Defined.

Lemma Reconcile_finalizer_present_no_record_update_witness :
  omap record_update
    (calls (snd (run api (Reconcile scenario.r0 scenario.key_a)
                     scenario.settled_store)))
  = [].
Proof.
  set (res := run api (Reconcile scenario.r0 scenario.key_a) scenario.settled_store).
  exact (proj1 (Reconcile_finalizer_present_no_record_update
                  api scenario.settled_store (snd (fst res)) scenario.settled_store
                  scenario.r0 scenario.key_a (fst (fst res)) (snd res)
                  scenario.settled_record
                  ltac:(vm_compute; reflexivity) eq_refl eq_refl (run_eta res))).
Defined.

(** X8. The status write changes the status only: the record a pass sends
    to the status subresource has the metadata and the spec of the record
    the pass holds, and every condition of that record whose type is not
    Ready is still there, at its place and unchanged. *)
Theorem Reconcile_status_write_frame
    {W : Type} (h : handler W) (w w' : W)
    (r : AppServiceReconciler) (req : NamespacedName)
    (out : outcome) (tr : list event) (app a : AppService) :
  run h (Reconcile r req) w = (out, w', tr) →
  held_record tr = Some app →
  In a (omap status_write tr) →
  app_ObjectMeta a = app_ObjectMeta app
  ∧ app_Spec a = app_Spec app
  ∧ ∀ (i : nat) c, Conditions (app_Status app) !! i = Some c →
                   c_Type c ≠ "Ready" →
                   Conditions (app_Status a) !! i = Some c.
Proof.
  intros Hrun Hheld Ha.
  pass_cases h Hrun.
  all: injection Hrun as <- <- <-.
  all: cbn in Hheld, Ha.
  all: try contradiction.
  all: destruct Ha as [<-|[]]; injection Hheld as <-.
  all: split_and!; [reflexivity|reflexivity|].
  all: intros place c Hc Hty; rewrite condition_facts.Conditions_updateCondition.
  all: match goal with
       | |- updateCondition_loop ?new _ !! _ = _ =>
           destruct (condition_facts.loop_lookup new _ place c Hc)
             as (c' & Hloop & Hsame & Hcase)
       end.
  all: etrans; [exact Hloop|].
  all: destruct Hcase as [->|[-> _]]; [reflexivity|].
  all: by destruct Hty.
Qed.

Lemma Reconcile_status_write_frame_witness :
  ∃ a, omap status_write
         (snd (run api (Reconcile scenario.r0 scenario.key_a)
                   scenario.settled_store))
       = [a]
       ∧ app_Spec a = app_Spec scenario.settled_record.
Proof.
  set (res := run api (Reconcile scenario.r0 scenario.key_a) scenario.settled_store).
  assert (∃ a, omap status_write (snd res) = [a]) as [a Hwritten]
    by (vm_compute; eauto).
  exists a. split; [exact Hwritten|].
  destruct (Reconcile_status_write_frame
              api scenario.settled_store (snd (fst res)) scenario.r0
              scenario.key_a (fst (fst res)) (snd res)
              scenario.settled_record a (run_eta res))
    as (_ & Hspec & _).
  - vm_compute. reflexivity.
  - rewrite Hwritten. left. reflexivity.
  - exact Hspec.
Defined.

(** X21. What a pass never asks for.  No pass deletes anything, not even
    the pass that runs the cleanup of a record being deleted; no pass
    creates a record or updates an endpoint; and the status subresource is
    written for the record only. *)
Theorem Reconcile_never_deletes
    {W : Type} (h : handler W) (w w' : W)
    (r : AppServiceReconciler) (req : NamespacedName)
    (out : outcome) (tr : list event) (c : call) :
  run h (Reconcile r req) w = (out, w', tr) →
  In c (calls tr) →
  match c with
  | Delete _ _ => False
  | Create K _ => K ≠ KAppService
  | Update K _ => K ≠ KService
  | StatusUpdate K _ => K = KAppService
  | Get _ key => key = req ∨ ∃ app, held_record tr = Some app ∧ key = keyOf app
  | Now => True
  end.
Proof.
  intros Hrun Hc.
  pass_cases h Hrun.
  all: injection Hrun as <- <- <-.
  all: cbn in Hc; destruct_or?; subst c; try contradiction; cbn.
  all: try done; eauto.
Qed.

Lemma Reconcile_never_deletes_witness :
  let s := scenario.store_of
             (scenario.record [finalizer] (Some 50) 3 80 [])
             (Some (scenario.workload scenario.settled_record 3))
             (Some (scenario.endpoint scenario.settled_record)) in
  let c := Update KAppService (scenario.record [] (Some 50) 3 80 []) in
  In c (calls (snd (run api (Reconcile scenario.r0 scenario.key_a) s)))
  ∧ KAppService ≠ KService.
Proof.
  intros s c.
  set (res := run api (Reconcile scenario.r0 scenario.key_a) s).
  assert (In c (calls (snd res))) as Hin
    by (vm_compute; right; left; reflexivity).
  split; [exact Hin|].
  exact (Reconcile_never_deletes api s (snd (fst res)) scenario.r0 scenario.key_a
           (fst (fst res)) (snd res) c (run_eta res) Hin).
Defined.

End reconcile_more.

(** ** More on the condition tracker *)

Module condition_more.
Import controllers conditions.

Lemma loop_absent condition cs :
  Forall (fun c => c_Type c ≠ c_Type condition) cs →
  updateCondition_loop condition cs = (cs ++ [condition])%list.
Proof.
  induction 1 as [|c rest Hc _ IH]; simpl; [done|].
  apply String.eqb_neq in Hc. by rewrite Hc, IH.
Qed.

Lemma loop_flip condition pre old post :
  Forall (fun c => c_Type c ≠ c_Type condition) pre →
  c_Type old = c_Type condition →
  c_Status old ≠ c_Status condition →
  updateCondition_loop condition (pre ++ old :: post)
  = (pre ++ condition :: post)%list.
Proof.
  intros Hpre Hty Hst.
  induction Hpre as [|c rest Hc _ IH]; simpl.
  - apply String.eqb_eq in Hty. apply String.eqb_neq in Hst.
    by rewrite Hty, Hst.
  - apply String.eqb_neq in Hc. by rewrite Hc, IH.
Qed.

Lemma loop_again condition again cs :
  c_Type again = c_Type condition →
  c_Status again = c_Status condition →
  updateCondition_loop again (updateCondition_loop condition cs)
  = updateCondition_loop condition cs.
Proof.
  intros Hty Hst. induction cs as [|c rest IH]; simpl.
  - by rewrite Hty, Hst, !String.eqb_refl.
  - destruct (String.eqb (c_Type c) (c_Type condition)) eqn:Hc.
    + destruct (String.eqb (c_Status c) (c_Status condition)) eqn:Hs; simpl.
      * by rewrite Hty, Hst, Hc, Hs.
      * by rewrite Hty, Hst, !String.eqb_refl.
    + simpl. by rewrite Hty, Hc, IH.
Qed.

(** X11. When the record has no condition of the given type,
    [updateCondition] appends the new condition at the end: the conditions
    that were there keep their places, and nothing else of the record
    changes. *)
Theorem updateCondition_appends_absent_type
    (now : Time) (app : AppService) (condType : string)
    (status : ConditionStatus) (reason message : string) :
  Forall (fun c => c_Type c ≠ condType) (Conditions (app_Status app)) →
  updateCondition now app condType status reason message
  = with_Conditions
      (Conditions (app_Status app)
       ++ [mkCondition condType status reason message now])%list app.
Proof.
  intros Habsent. unfold updateCondition. f_equal.
  by apply loop_absent.
Qed.

Lemma updateCondition_appends_absent_type_witness :
  Conditions
    (app_Status
       (updateCondition 7
          (scenario.record [] None 3 80
             [mkCondition "Progressing" "True" "r" "m" 1])
          "Ready" ConditionTrue "DeploymentReady" "ok"))
  = [mkCondition "Progressing" "True" "r" "m" 1;
     mkCondition "Ready" "True" "DeploymentReady" "ok" 7].
Proof.
  rewrite updateCondition_appends_absent_type; [reflexivity|].
  repeat constructor. simpl. discriminate.
Defined.

(** X12. When the first condition of the given type has another status,
    [updateCondition] puts the new condition in its place: the conditions
    before and after it are untouched, later conditions of the same type
    included, and the sequence keeps its length. *)
Theorem updateCondition_replaces_first_in_place
    (now : Time) (app : AppService) (condType : string)
    (status : ConditionStatus) (reason message : string)
    (pre post : list Condition) (old : Condition) :
  Conditions (app_Status app) = (pre ++ old :: post)%list →
  Forall (fun c => c_Type c ≠ condType) pre →
  c_Type old = condType →
  c_Status old ≠ status →
  Conditions (app_Status (updateCondition now app condType status reason message))
  = (pre ++ mkCondition condType status reason message now :: post)%list.
Proof.
  intros Hcs Hpre Hty Hst.
  rewrite condition_facts.Conditions_updateCondition, Hcs.
  by apply loop_flip.
Qed.

Lemma updateCondition_replaces_first_in_place_witness :
  Conditions
    (app_Status
       (updateCondition 7
          (scenario.record [] None 3 80
             [mkCondition "Progressing" "True" "r" "m" 1;
              mkCondition "Ready" "False" "DeploymentNotReady" "wait" 2;
              mkCondition "Ready" "Unknown" "old" "stale" 0])
          "Ready" ConditionTrue "DeploymentReady" "ok"))
  = [mkCondition "Progressing" "True" "r" "m" 1;
     mkCondition "Ready" "True" "DeploymentReady" "ok" 7;
     mkCondition "Ready" "Unknown" "old" "stale" 0].
Proof.
  apply (updateCondition_replaces_first_in_place 7 _ "Ready" ConditionTrue
           "DeploymentReady" "ok"
           [mkCondition "Progressing" "True" "r" "m" 1]
           [mkCondition "Ready" "Unknown" "old" "stale" 0]
           (mkCondition "Ready" "False" "DeploymentNotReady" "wait" 2)).
  - reflexivity.
  - repeat constructor. simpl. discriminate.
  - reflexivity.
  - simpl. discriminate.
Defined.

(** X13. Setting the same type to the same status a second time changes
    nothing, whatever the second call's reason, message and clock reading
    are: the transition time of the first call stays. *)
Theorem updateCondition_again_same_status
    (now later : Time) (app : AppService) (condType : string)
    (status : ConditionStatus) (reason message reason' message' : string) :
  updateCondition later
    (updateCondition now app condType status reason message)
    condType status reason' message'
  = updateCondition now app condType status reason message.
Proof.
  unfold updateCondition at 1.
  rewrite condition_facts.Conditions_updateCondition.
  rewrite loop_again by reflexivity.
  unfold updateCondition, with_Conditions, with_Status. simpl. reflexivity.
Qed.

End condition_more.

(** ** More on the synthesized dependents *)

Module synthesizer_more.
Import controllers synthesizer.

(** X14. The workload and the endpoint built for one record fit together:
    both are named after the record and live in its namespace; the
    workload's selector, the labels of its pod template and the endpoint's
    selector are the same one-entry map from "app" to the record's name;
    the workload asks for the record's replica count; and the endpoint's
    port and target port are the port of the workload's only container,
    which is the record's port. *)
Theorem dependents_fit_together (r : AppServiceReconciler) (app : AppService) :
  let d := deploymentForAppService r app in
  let s := serviceForAppService r app in
  let labels : option (gmap string string) :=
    Some {[ "app" := Name (app_ObjectMeta app) ]} in
  ObjectKeyFromObject (K := KDeployment) d
  = ObjectKeyFromObject (K := KAppService) app
  ∧ ObjectKeyFromObject (K := KService) s
    = ObjectKeyFromObject (K := KAppService) app
  ∧ dep_Selector (dep_Spec d) = labels
  ∧ Labels (tpl_ObjectMeta (dep_Template (dep_Spec d))) = labels
  ∧ svc_Selector (svc_Spec s) = labels
  ∧ dep_Replicas (dep_Spec d) = Some (Replicas (app_Spec app))
  ∧ map ct_Ports (tpl_Containers (dep_Template (dep_Spec d)))
    = [[mkContainerPort (Port (app_Spec app))]]
  ∧ svc_Ports (svc_Spec s)
    = [mkServicePort (Port (app_Spec app)) (FromInt (Port (app_Spec app)))]
  ∧ svc_Type (svc_Spec s) = ServiceTypeClusterIP.
Proof.
  intros d s labels. subst d s labels.
  unfold deploymentForAppService, serviceForAppService, SetControllerReference.
  destruct (gvk_AppService (Scheme r)) as [[apiVersion knd]|];
    destruct (Nat.ltb 0 (size (Environment (app_Spec app))));
    destruct (negb (String.eqb (CPU (Resources (app_Spec app))) "")
              || negb (String.eqb (Memory (Resources (app_Spec app))) ""));
    cbn; by split_and!.
Qed.

(** X15. The environment variables of the synthesized container are the
    entries of the record's environment map: a variable with name [k] and
    value [v] is listed exactly when the map sends [k] to [v], no name is
    listed twice, and an empty map gives no variables. *)
Theorem deploymentForAppService_environment
    (r : AppServiceReconciler) (app : AppService) :
  ∃ c, tpl_Containers (dep_Template (dep_Spec (deploymentForAppService r app)))
       = [c]
       ∧ (∀ k v, In (mkEnvVar k v) (ct_Env c)
                 ↔ Environment (app_Spec app) !! k = Some v)
       ∧ NoDup (map ev_Name (ct_Env c))
       ∧ length (ct_Env c) = size (Environment (app_Spec app)).
Proof.
  set (env := Environment (app_Spec app)).
  assert (∀ k v, In (mkEnvVar k v)
                    (map (fun kv => mkEnvVar (fst kv) (snd kv)) (map_to_list env))
                 ↔ env !! k = Some v) as Hlisted.
  { intros k v. rewrite in_map_iff. split.
    - intros ([k' v'] & [= -> ->] & Hin).
      by apply elem_of_map_to_list, list_elem_of_In.
    - intros Hkv. exists (k, v). split; [done|].
      by apply list_elem_of_In, elem_of_map_to_list. }
  assert (NoDup (map ev_Name
                   (map (fun kv => mkEnvVar (fst kv) (snd kv)) (map_to_list env))))
    as Hnames.
  { rewrite map_map. simpl. apply (NoDup_fst_map_to_list env). }
  assert (length (map (fun kv => mkEnvVar (fst kv) (snd kv)) (map_to_list env))
          = size env) as Hlen.
  { rewrite length_map. apply length_map_to_list. }
  unfold deploymentForAppService, SetControllerReference. fold env.
  destruct (Nat.ltb 0 (size env)) eqn:Hsize.
  - destruct (gvk_AppService (Scheme r)) as [[apiVersion knd]|];
      destruct (negb (String.eqb (CPU (Resources (app_Spec app))) "")
                || negb (String.eqb (Memory (Resources (app_Spec app))) ""));
      cbn; eexists; (split; [reflexivity|]); cbn; by split_and!.
  - apply Nat.ltb_ge in Hsize.
    assert (size env = 0%nat) as Hzero by (clear -Hsize; lia).
    apply map_size_empty_iff in Hzero.
    destruct (gvk_AppService (Scheme r)) as [[apiVersion knd]|];
      destruct (negb (String.eqb (CPU (Resources (app_Spec app))) "")
                || negb (String.eqb (Memory (Resources (app_Spec app))) ""));
      cbn; eexists; (split; [reflexivity|]); cbn.
    all: rewrite Hzero; split_and!; [|constructor|by rewrite map_size_empty].
    all: intros k v; rewrite lookup_empty; split; [intros []|discriminate].
Qed.

(** X16. Ownership of the dependents.  When the scheme knows the record's
    type, the workload and the endpoint each carry exactly one owner
    reference: it names the record and its UID, and is marked as the
    controlling one.  When the scheme does not know the type, setting the
    reference fails, the error is dropped, and both dependents are built
    without any owner reference. *)
Theorem dependents_owner_reference (r : AppServiceReconciler) (app : AppService) :
  let owners :=
    match gvk_AppService (Scheme r) with
    | Some (apiVersion, knd) =>
        [mkOwnerReference apiVersion knd (Name (app_ObjectMeta app))
                          (UID (app_ObjectMeta app)) true true]
    | None => []
    end in
  OwnerReferences (dep_ObjectMeta (deploymentForAppService r app)) = owners
  ∧ OwnerReferences (svc_ObjectMeta (serviceForAppService r app)) = owners.
Proof.
  unfold deploymentForAppService, serviceForAppService, SetControllerReference.
  destruct (gvk_AppService (Scheme r)) as [[apiVersion knd]|];
    destruct (Nat.ltb 0 (size (Environment (app_Spec app))));
    destruct (negb (String.eqb (CPU (Resources (app_Spec app))) "")
              || negb (String.eqb (Memory (Resources (app_Spec app))) ""));
    cbn; by split.
Qed.

End synthesizer_more.

(** ** More on the accessor helpers *)

Module accessor_more.
Import reconciler store trace.

(** X17. [GetObject] and [DeleteIfExists] make one call each and never hand
    a not-found error to their caller: whatever the store answers, an error
    that comes back is the store's own error and is of another kind.
    [GetObject] leaves the caller's object as it was whenever the store
    answers with an error. *)
Theorem accessors_swallow_not_found
    {K : kind} {W : Type} (h : handler W) (w : W)
    (key : NamespacedName) (obj : Object K) :
  (∀ res back w' tr,
     run h (GetObject key obj) w = ((res, back), w', tr) →
     ∃ answer, tr = [Event (Get K key) answer]
       ∧ (∀ e, res = Some e → answer = inl e ∧ IsNotFound e = false)
       ∧ (∀ e, answer = inl e → back = obj))
  ∧ (∀ res w' tr,
       run h (DeleteIfExists obj) w = (res, w', tr) →
       ∃ answer, tr = [Event (Delete K obj) answer]
         ∧ (∀ e, res = Some e → answer = Some e ∧ IsNotFound e = false)).
Proof.
  split.
  - intros res back w' tr. unfold GetObject. cbn.
    destruct (h (Get K key) w) as [answer w1]. cbn in answer.
    destruct answer as [err|found]; cbn.
    + destruct (IsNotFound err) eqn:Hnf; cbn; intros [= <- <- <- <-];
        eexists; (split; [reflexivity|]); split; intros e He;
        by simplify_eq.
    + intros [= <- <- <- <-]. eexists. split; [reflexivity|].
      split; intros e He; by simplify_eq.
  - intros res w' tr. unfold DeleteIfExists. cbn.
    destruct (h (Delete K obj) w) as [answer w1]. cbn in answer.
    destruct answer as [err|]; cbn.
    + destruct (IsNotFound err) eqn:Hnf; cbn; intros [= <- <- <-];
        eexists; (split; [reflexivity|]); intros e He; by simplify_eq.
    + intros [= <- <- <-]. eexists. split; [reflexivity|].
      intros e He. by simplify_eq.
Qed.

Lemma accessors_swallow_not_found_witness :
  ∃ answer,
    snd (run api (DeleteIfExists (K := KDeployment)
                    (scenario.workload scenario.settled_record 3))
             scenario.fresh_store)
    = [Event (Delete KDeployment (scenario.workload scenario.settled_record 3))
             answer].
Proof.
  set (obj := scenario.workload scenario.settled_record 3).
  set (res := run api (DeleteIfExists (K := KDeployment) obj) scenario.fresh_store).
  destruct (@accessors_swallow_not_found KDeployment Store api scenario.fresh_store
              scenario.key_a obj) as [_ Hdelete].
  destruct (Hdelete (fst (fst res)) (snd (fst res)) (snd res))
    as (answer & Htr & _).
  - apply reconcile_more.run_eta.
  - exists answer. exact Htr.
Defined.

(** X18. On the store, [DeleteIfExists] always returns nil and leaves no
    object of the argument's kind under the argument's key, whether one
    was there or not; the objects of that kind under other keys are as
    before.  A second call gets a not-found answer, returns nil again and
    leaves the store as it is. *)
Theorem DeleteIfExists_store_absent_after
    {K : kind} (obj : Object K) (s : Store) :
  ∃ s' tr,
    run api (DeleteIfExists obj) s = (None, s', tr)
    ∧ table K s' = delete (ObjectKeyFromObject obj) (table K s)
    ∧ run api (DeleteIfExists obj) s'
      = (None, s',
         [Event (Delete K obj) (Some (StatusError ReasonNotFound))]).
Proof.
  unfold DeleteIfExists. cbn.
  destruct (table K s !! ObjectKeyFromObject obj) as [cur|] eqn:Hcur; cbn.
  - eexists _, _. split; [reflexivity|].
    rewrite accessor_facts.table_with_table. split; [reflexivity|].
    by rewrite lookup_delete_eq.
  - eexists _, _. split; [reflexivity|].
    split; [by rewrite delete_id|].
    by rewrite Hcur.
Qed.

(** X19. On the store, with no other writer, [CreateOrUpdate] always
    returns nil, and a [GetObject] for the argument's key right after it
    hands back the argument itself up to its version stamp, with a stamp
    that differs from the one of the object that was stored before. *)
Theorem CreateOrUpdate_then_GetObject
    {K : kind} (obj blank : Object K) (s : Store) :
  let key := ObjectKeyFromObject obj in
  ∃ s' tr v,
    run api (CreateOrUpdate obj) s = (None, s', tr)
    ∧ run api (GetObject key blank) s'
      = ((None, SetResourceVersion v obj), s',
         [Event (Get K key) (inr (SetResourceVersion v obj))])
    ∧ ∀ existing, table K s !! key = Some existing →
                  v ≠ GetResourceVersion existing.
Proof.
  intros key. unfold CreateOrUpdate, GetObject. fold key. cbn.
  destruct (table K s !! key) as [existing|] eqn:Hcur; cbn.
  - rewrite accessor_facts.ObjectKey_SetResourceVersion. fold key.
    rewrite Hcur, accessor_facts.GetResourceVersion_Set, String.eqb_refl.
    unfold write. cbn.
    rewrite accessor_facts.ObjectKey_SetResourceVersion. fold key.
    rewrite accessor_facts.GetResourceVersion_Set.
    exists (with_table K
              (<[key := SetResourceVersion
                          (next_version (GetResourceVersion existing))
                          (SetResourceVersion (GetResourceVersion existing) obj)]>
                 (table K s)) s).
    eexists. exists (next_version (GetResourceVersion existing)).
    split; [reflexivity|].
    rewrite accessor_facts.table_with_table, lookup_insert_eq.
    assert (SetResourceVersion (next_version (GetResourceVersion existing))
              (SetResourceVersion (GetResourceVersion existing) obj)
            = SetResourceVersion (next_version (GetResourceVersion existing)) obj)
      as -> by (by destruct K).
    split; [reflexivity|].
    intros ? [= <-] Heq.
    pose proof (accessor_facts.next_version_fresh (GetResourceVersion existing))
      as Hfresh.
    apply String.eqb_neq in Hfresh. by apply Hfresh.
  - fold key. rewrite Hcur. unfold write. cbn. fold key.
    eexists _, _, (next_version (GetResourceVersion obj)).
    split; [reflexivity|].
    rewrite accessor_facts.table_with_table, lookup_insert_eq.
    split; [reflexivity|]. intros ? [=].
Qed.

Lemma CreateOrUpdate_then_GetObject_witness :
  ∃ s' v,
    fst (run api (GetObject (K := KDeployment) scenario.key_a
                    (scenario.workload scenario.fresh_record 0)) s')
    = ((None,
        SetResourceVersion (K := KDeployment) v
          (scenario.workload scenario.scaled_record 3)), s')
    ∧ v ≠ "".
Proof.
  destruct (@CreateOrUpdate_then_GetObject KDeployment
              (scenario.workload scenario.scaled_record 3)
              (scenario.workload scenario.fresh_record 0)
              scenario.settled_store)
    as (s' & tr & v & _ & Hget & Hfresh).
  exists s', v. split.
  - change (ObjectKeyFromObject (K := KDeployment)
              (scenario.workload scenario.scaled_record 3))
      with scenario.key_a in Hget.
    by rewrite Hget.
  - apply (Hfresh (scenario.workload scenario.settled_record 3)).
    vm_compute. reflexivity.
Defined.

End accessor_more.

(** ** The watcher's event conversion *)

Module watcher_facts.
Import watcher.

(** X20. [ConvertToEvent] keeps the object and maps the type into the four
    types the package declares: a type among ADDED, MODIFIED, DELETED and
    ERROR is kept, and every other type, BOOKMARK included, becomes
    ERROR. *)
Theorem ConvertToEvent_types {O : Type} (e : watch_Event O) :
  ev_Object (ConvertToEvent e) = we_Object e
  ∧ In (ev_Type (ConvertToEvent e))
       [EventAdded; EventModified; EventDeleted; EventError]
  ∧ (ev_Type (ConvertToEvent e) = we_Type e
     ↔ In (we_Type e) [watch_Added; watch_Modified; watch_Deleted; watch_Error])
  ∧ (ev_Type (ConvertToEvent e) = EventError
     ↔ ¬ In (we_Type e) [watch_Added; watch_Modified; watch_Deleted]).
Proof.
  unfold ConvertToEvent. cbn.
  destruct (String.eqb (we_Type e) watch_Added) eqn:Ha;
    [apply String.eqb_eq in Ha; rewrite Ha; cbn;
     split_and!; [done|tauto|split; [tauto|done]|split; [discriminate|tauto]]|].
  destruct (String.eqb (we_Type e) watch_Modified) eqn:Hm;
    [apply String.eqb_eq in Hm; rewrite Hm; cbn;
     split_and!; [done|tauto|split; [tauto|done]|split; [discriminate|tauto]]|].
  destruct (String.eqb (we_Type e) watch_Deleted) eqn:Hd;
    [apply String.eqb_eq in Hd; rewrite Hd; cbn;
     split_and!; [done|tauto|split; [tauto|done]|split; [discriminate|tauto]]|].
  apply String.eqb_neq in Ha, Hm, Hd.
  assert (ev_Type
            (mkEvent (if String.eqb (we_Type e) watch_Error
                      then EventError else EventError) (we_Object e))
          = EventError) as Herr
    by (by destruct (String.eqb (we_Type e) watch_Error)).
  cbn in Herr. rewrite Herr.
  split_and!; [done|cbn; tauto| |].
  - split.
    + intros <-. cbn. tauto.
    + cbn. intros [H|[H|[H|[H|[]]]]]; try (by symmetry in H); done.
  - split; [|done]. intros _. cbn.
    intros [H|[H|[H|[]]]]; by symmetry in H.
Qed.

Lemma ConvertToEvent_types_witness :
  ev_Type (ConvertToEvent (mkWatchEvent watch_Bookmark tt)) = EventError.
Proof.
  apply (ConvertToEvent_types (mkWatchEvent watch_Bookmark tt)).
  cbn. intros [H|[H|[H|[]]]]; discriminate H.
Defined.

End watcher_facts.

(** ** Successive passes against the store *)

Module convergence.
Import reconciler controllers store rounds trace conditions.

Lemma deployment_key r app :
  ObjectKeyFromObject (K := KDeployment) (deploymentForAppService r app)
  = keyOf app.
Proof.
  unfold deploymentForAppService, SetControllerReference.
  by destruct (gvk_AppService (Scheme r)) as [[? ?]|].
Qed.

Lemma service_key r app :
  ObjectKeyFromObject (K := KService) (serviceForAppService r app) = keyOf app.
Proof.
  unfold serviceForAppService, SetControllerReference.
  by destruct (gvk_AppService (Scheme r)) as [[? ?]|].
Qed.

Lemma deployment_replicas r app :
  dep_Replicas (dep_Spec (deploymentForAppService r app))
  = Some (Replicas (app_Spec app)).
Proof.
  unfold deploymentForAppService, SetControllerReference.
  by destruct (gvk_AppService (Scheme r)) as [[? ?]|].
Qed.

Lemma deployment_available r app :
  dep_AvailableReplicas (dep_Status (deploymentForAppService r app)) = 0.
Proof.
  unfold deploymentForAppService, SetControllerReference.
  by destruct (gvk_AppService (Scheme r)) as [[? ?]|].
Qed.

Lemma with_finalizer_facts app :
  keyOf (with_finalizer app) = keyOf app
  ∧ DeletionTimestamp (app_ObjectMeta (with_finalizer app))
    = DeletionTimestamp (app_ObjectMeta app)
  ∧ ContainsFinalizer (with_finalizer app) finalizer = true
  ∧ app_Spec (with_finalizer app) = app_Spec app
  ∧ app_Status (with_finalizer app) = app_Status app.
Proof.
  unfold with_finalizer, stored.
  destruct (ContainsFinalizer app finalizer) eqn:Hfin; [done|].
  pose proof (reconcile_facts.ContainsFinalizer_AddFinalizer app finalizer) as Hadd.
  unfold AddFinalizer in *. rewrite Hfin in *.
  split_and!; try done.
Qed.

Lemma stored_record_facts (app : AppService) :
  keyOf (stored (K := KAppService) app) = keyOf app
  ∧ DeletionTimestamp (app_ObjectMeta (stored (K := KAppService) app))
    = DeletionTimestamp (app_ObjectMeta app)
  ∧ ContainsFinalizer (stored (K := KAppService) app) finalizer
    = ContainsFinalizer app finalizer
  ∧ app_Spec (stored (K := KAppService) app) = app_Spec app
  ∧ app_Status (stored (K := KAppService) app) = app_Status app.
Proof. by split_and!. Qed.

Lemma pass_create_workload (r : AppServiceReconciler) (req : NamespacedName)
    (s : Store) (app : AppService) :
  appServices s !! req = Some app →
  keyOf app = req →
  IsZero (DeletionTimestamp (app_ObjectMeta app)) = true →
  deployments s !! req = None →
  ∃ s1 tr,
    run api (Reconcile r req) s = (Returned Requeue_ None, s1, tr)
    ∧ omap created_workload (calls tr)
      = [deploymentForAppService r (with_finalizer app)]
    ∧ omap created_endpoint (calls tr) = []
    ∧ omap status_write tr = []
    ∧ appServices s1 !! req = Some (with_finalizer app)
    ∧ deployments s1 !! req
      = Some (stored (K := KDeployment)
                (deploymentForAppService r (with_finalizer app)))
    ∧ services s1 = services s.
Proof.
  intros Happ Hkey Hlive Hdep.
  unfold Reconcile, with_finalizer. cbn. rewrite Happ. cbn. rewrite Hlive.
  destruct (ContainsFinalizer app finalizer) eqn:Hfin; cbn.
  - rewrite Hkey, Hdep. cbn.
    rewrite deployment_key, Hkey, Hdep. unfold write. cbn.
    rewrite deployment_key, Hkey.
    eexists _, _. split; [reflexivity|]. cbn.
    rewrite lookup_insert_eq. by split_and!.
  - unfold AddFinalizer. rewrite Hfin.
    unfold keyOf in Hkey.
    unfold ObjectKeyFromObject at 1. cbn. rewrite Hkey, Happ.
    unfold GetResourceVersion at 1 2. cbn.
    rewrite String.eqb_refl. unfold write. cbn.
    unfold keyOf at 1. cbn. rewrite Hkey, Hdep. cbn.
    rewrite !deployment_key. unfold keyOf, ObjectKeyFromObject. cbn.
    rewrite !Hkey, Hdep. unfold write. cbn.
    rewrite ?deployment_key. unfold keyOf, ObjectKeyFromObject. cbn.
    rewrite ?Hkey.
    eexists _, _. split; [reflexivity|]. cbn.
    rewrite !lookup_insert_eq. by split_and!.
Qed.

Lemma pass_create_endpoint (r : AppServiceReconciler) (req : NamespacedName)
    (s : Store) (app : AppService) (d : Deployment) :
  appServices s !! req = Some app →
  keyOf app = req →
  IsZero (DeletionTimestamp (app_ObjectMeta app)) = true →
  ContainsFinalizer app finalizer = true →
  deployments s !! req = Some d →
  dep_Replicas (dep_Spec d) = Some (Replicas (app_Spec app)) →
  services s !! req = None →
  ∃ s2 tr,
    run api (Reconcile r req) s = (Returned Requeue_ None, s2, tr)
    ∧ omap created_endpoint (calls tr) = [serviceForAppService r app]
    ∧ omap created_workload (calls tr) = []
    ∧ omap status_write tr = []
    ∧ appServices s2 = appServices s
    ∧ deployments s2 = deployments s
    ∧ services s2 !! req
      = Some (stored (K := KService) (serviceForAppService r app)).
Proof.
  intros Happ Hkey Hlive Hfin Hdep Hreplicas Hsvc.
  unfold Reconcile. cbn. rewrite Happ. cbn. rewrite Hlive, Hfin. cbn.
  rewrite Hkey, Hdep. cbn. rewrite Hreplicas, Z.eqb_refl. cbn.
  rewrite Hsvc. cbn.
  rewrite service_key, Hkey, Hsvc. unfold write. cbn.
  rewrite service_key, Hkey.
  eexists _, _. split; [reflexivity|]. cbn.
  rewrite lookup_insert_eq. by split_and!.
Qed.

Lemma pass_refresh_status (r : AppServiceReconciler) (req : NamespacedName)
    (s : Store) (app : AppService) (d : Deployment) (svc : Service) :
  appServices s !! req = Some app →
  keyOf app = req →
  IsZero (DeletionTimestamp (app_ObjectMeta app)) = true →
  ContainsFinalizer app finalizer = true →
  deployments s !! req = Some d →
  dep_Replicas (dep_Spec d) = Some (Replicas (app_Spec app)) →
  services s !! req = Some svc →
  ∃ s3 tr app3,
    run api (Reconcile r req) s
    = (Returned (RequeueAfter_ (30 * Second)) None, s3, tr)
    ∧ List.filter mutates (calls tr) = [StatusUpdate KAppService app3]
    ∧ appServices s3 !! req = Some (stored (K := KAppService) app3)
    ∧ deployments s3 = deployments s
    ∧ services s3 = services s
    ∧ app_ObjectMeta app3 = app_ObjectMeta app
    ∧ app_Spec app3 = app_Spec app
    ∧ AvailableReplicas (app_Status app3)
      = dep_AvailableReplicas (dep_Status d)
    ∧ Phase (app_Status app3)
      = (if Z.eqb (dep_AvailableReplicas (dep_Status d)) (Replicas (app_Spec app))
         then "Running" else "Pending")
    ∧ LastReconcileTime (app_Status app3) = clock s.
Proof.
  intros Happ Hkey Hlive Hfin Hdep Hreplicas Hsvc.
  unfold Reconcile. cbn. rewrite Happ. cbn. rewrite Hlive, Hfin. cbn.
  rewrite Hkey, Hdep. cbn. rewrite Hreplicas, Z.eqb_refl. cbn.
  rewrite Hsvc. cbn.
  unfold keyOf in Hkey.
  destruct (Z.eqb (dep_AvailableReplicas (dep_Status d)) (Replicas (app_Spec app)));
    cbn; unfold ObjectKeyFromObject; cbn; rewrite Hkey, Happ;
    unfold GetResourceVersion; cbn; rewrite String.eqb_refl;
    unfold write; cbn; unfold ObjectKeyFromObject; cbn; rewrite Hkey;
    eexists _, _, _; (split; [reflexivity|]); cbn;
    rewrite lookup_insert_eq; by split_and!.
Qed.

Lemma settled_inv req s :
  settled req s = true →
  ∃ app d svc,
    appServices s !! req = Some app
    ∧ deployments s !! req = Some d
    ∧ services s !! req = Some svc
    ∧ keyOf app = req
    ∧ IsZero (DeletionTimestamp (app_ObjectMeta app)) = true
    ∧ ContainsFinalizer app finalizer = true
    ∧ dep_Replicas (dep_Spec d) = Some (Replicas (app_Spec app)).
Proof.
  unfold settled.
  destruct (appServices s !! req) as [app|]; [|done].
  destruct (deployments s !! req) as [d|]; [|done].
  destruct (services s !! req) as [svc|]; [|done].
  rewrite !andb_true_iff, bool_decide_eq_true.
  intros [[[Hkey Hlive] Hfin] Hreplicas].
  exists app, d, svc. split_and!; try done.
  destruct (dep_Replicas (dep_Spec d)) as [n|]; [|done].
  apply Z.eqb_eq in Hreplicas. by subst n.
Qed.

Lemma settled_intro req s app d svc :
  appServices s !! req = Some app →
  deployments s !! req = Some d →
  services s !! req = Some svc →
  keyOf app = req →
  IsZero (DeletionTimestamp (app_ObjectMeta app)) = true →
  ContainsFinalizer app finalizer = true →
  dep_Replicas (dep_Spec d) = Some (Replicas (app_Spec app)) →
  settled req s = true.
Proof.
  intros Happ Hdep Hsvc Hkey Hlive Hfin Hreplicas.
  unfold settled. rewrite Happ, Hdep, Hsvc, Hlive, Hfin, Hreplicas, Z.eqb_refl.
  rewrite !andb_true_r. by apply bool_decide_eq_true.
Qed.

(** X22. Three passes bring a new record to rest.  On a store that holds
    a live record under the requested key and no dependents for it, with
    nobody else writing, the first pass adds the finalizer where it is
    missing and creates the workload and nothing else, the second creates
    the endpoint and nothing else, and the third writes the status and
    leaves the dependents alone; the first two ask to be run again at
    once, the third after thirty seconds.  The store after each pass is
    given: after the first it holds the record with the finalizer and the
    synthesized workload, and still no endpoint; after the second also
    the synthesized endpoint; after the third the record has its spec as
    before and its status says no replica is available. *)
Theorem passes_settle_new_record
    (r : AppServiceReconciler) (req : NamespacedName) (s : Store)
    (app : AppService) :
  appServices s !! req = Some app →
  keyOf app = req →
  IsZero (DeletionTimestamp (app_ObjectMeta app)) = true →
  deployments s !! req = None →
  services s !! req = None →
  ∃ s1 s2 s3 tr1 tr2 tr3 app3,
    (* the first pass *)
    run api (Reconcile r req) s = (Returned Requeue_ None, s1, tr1)
    ∧ omap created_workload (calls tr1)
      = [deploymentForAppService r (with_finalizer app)]
    ∧ omap created_endpoint (calls tr1) = []
    ∧ omap status_write tr1 = []
    ∧ appServices s1 !! req = Some (with_finalizer app)
    ∧ ContainsFinalizer (with_finalizer app) finalizer = true
    ∧ deployments s1 !! req
      = Some (stored (K := KDeployment)
                (deploymentForAppService r (with_finalizer app)))
    ∧ services s1 = services s
    (* the second pass *)
    ∧ run api (Reconcile r req) s1 = (Returned Requeue_ None, s2, tr2)
    ∧ omap created_endpoint (calls tr2)
      = [serviceForAppService r (with_finalizer app)]
    ∧ omap created_workload (calls tr2) = []
    ∧ omap status_write tr2 = []
    ∧ appServices s2 = appServices s1
    ∧ deployments s2 = deployments s1
    ∧ services s2 !! req
      = Some (stored (K := KService)
                (serviceForAppService r (with_finalizer app)))
    (* the third pass *)
    ∧ run api (Reconcile r req) s2
      = (Returned (RequeueAfter_ (30 * Second)) None, s3, tr3)
    ∧ List.filter mutates (calls tr3) = [StatusUpdate KAppService app3]
    ∧ deployments s3 = deployments s2
    ∧ services s3 = services s2
    ∧ appServices s3 !! req
      = Some (stored (K := KAppService) app3)
    ∧ app_ObjectMeta app3 = app_ObjectMeta (with_finalizer app)
    ∧ app_Spec app3 = app_Spec app
    ∧ AvailableReplicas (app_Status app3) = 0
    ∧ Phase (app_Status app3)
      = (if Z.eqb 0 (Replicas (app_Spec app)) then "Running" else "Pending")
    (* together *)
    ∧ passes 3 r req s
      = ([Returned Requeue_ None; Returned Requeue_ None;
          Returned (RequeueAfter_ (30 * Second)) None], s3)
    ∧ settled req s3 = true.
Proof.
  intros Happ Hkey Hlive Hdep Hsvc.
  destruct (with_finalizer_facts app) as (Hkey1 & Hdel1 & Hfin1 & Hspec1 & _).
  destruct (pass_create_workload r req s app Happ Hkey Hlive Hdep)
    as (s1 & tr1 & Hrun1 & Hmade1 & Hnone1 & Hquiet1 & Happ1 & Hdep1 & Hsvc1).
  assert (dep_Replicas
            (dep_Spec (stored (K := KDeployment)
                         (deploymentForAppService r (with_finalizer app))))
          = Some (Replicas (app_Spec (with_finalizer app)))) as Hreplicas
    by apply deployment_replicas.
  assert (keyOf (with_finalizer app) = req) as Hkey' by congruence.
  assert (IsZero (DeletionTimestamp (app_ObjectMeta (with_finalizer app))) = true)
    as Hlive' by congruence.
  assert (services s1 !! req = None) as Hsvc' by congruence.
  destruct (pass_create_endpoint r req s1 _ _ Happ1 Hkey' Hlive' Hfin1 Hdep1
              Hreplicas Hsvc')
    as (s2 & tr2 & Hrun2 & Hmade2 & Hnone2 & Hquiet2 & Happ2 & Hdep2 & Hsvc2).
  assert (appServices s2 !! req = Some (with_finalizer app)) as Happ1'
    by congruence.
  assert (deployments s2 !! req
          = Some (stored (K := KDeployment)
                    (deploymentForAppService r (with_finalizer app)))) as Hdep1'
    by congruence.
  destruct (pass_refresh_status r req s2 _ _ _ Happ1' Hkey' Hlive' Hfin1 Hdep1'
              Hreplicas Hsvc2)
    as (s3 & tr3 & app3 & Hrun3 & Hwrites3 & Happ3 & Hdep3 & Hsvc3 & Hmeta3
        & Hspec3 & Havail3 & Hphase3 & _).
  assert (dep_AvailableReplicas
            (dep_Status (stored (K := KDeployment)
                           (deploymentForAppService r (with_finalizer app))))
          = 0) as Hnone by apply deployment_available.
  exists s1, s2, s3, tr1, tr2, tr3, app3.
  split_and!; try done.
  - congruence.
  - congruence.
  - rewrite Hphase3, Hnone. by rewrite Hspec1.
  - cbn [passes]. by rewrite Hrun1, Hrun2, Hrun3.
  - destruct (stored_record_facts app3) as (Hk & Hd & Hf & Hs & _).
    eapply settled_intro; try done.
    + by rewrite Hdep3.
    + by rewrite Hsvc3.
    + rewrite Hk. unfold keyOf. rewrite Hmeta3. exact Hkey'.
    + rewrite Hd, Hmeta3. exact Hlive'.
    + rewrite Hf. unfold ContainsFinalizer in *. by rewrite Hmeta3.
    + rewrite Hs, Hreplicas. congruence.
Qed.

Lemma passes_settle_new_record_witness :
  fst (passes 3 scenario.r0 scenario.key_a scenario.fresh_store)
  = [Returned Requeue_ None; Returned Requeue_ None;
     Returned (RequeueAfter_ (30 * Second)) None].
Proof.
  destruct (passes_settle_new_record scenario.r0 scenario.key_a
              scenario.fresh_store scenario.fresh_record)
    as (s1 & s2 & s3 & tr1 & tr2 & tr3 & app3 & Hfacts);
    [vm_compute; reflexivity | reflexivity | reflexivity
     | vm_compute; reflexivity | vm_compute; reflexivity |].
  decompose [and] Hfacts.
  match goal with
  | Hpasses : passes _ _ _ _ = _ |- _ => by rewrite Hpasses
  end.
Defined.

(** X23. A store at rest stays at rest.  Once the store holds, under the
    requested key, a live record with the finalizer, a workload with the
    record's replica count and an endpoint, every further pass, however
    many follow, writes the record's status and nothing else: each pass
    asks to be run again after thirty seconds, the workloads and the
    endpoints in the store are as before, the record keeps its spec, and
    the store is at rest again. *)
Theorem passes_keep_settled
    (r : AppServiceReconciler) (req : NamespacedName) (n : nat) (s : Store) :
  settled req s = true →
  ∃ s',
    passes n r req s
    = (repeat (Returned (RequeueAfter_ (30 * Second)) None) n, s')
    ∧ settled req s' = true
    ∧ deployments s' = deployments s
    ∧ services s' = services s
    ∧ app_Spec <$> appServices s' !! req = app_Spec <$> appServices s !! req.
Proof.
  revert s. induction n as [|n IH]; intros s Hsettled.
  - exists s. by split_and!.
  - destruct (settled_inv req s Hsettled)
      as (app & d & svc & Happ & Hdep & Hsvc & Hkey & Hlive & Hfin & Hreplicas).
    destruct (pass_refresh_status r req s app d svc)
      as (s1 & tr1 & app1 & Hrun1 & _ & Happ1 & Hdep1 & Hsvc1 & Hmeta1
          & Hspec1 & _); try done.
    destruct (stored_record_facts app1) as (Hk & Hd & Hf & Hs & _).
    assert (settled req s1 = true) as Hsettled1.
    { eapply settled_intro; try done.
      - by rewrite Hdep1.
      - by rewrite Hsvc1.
      - rewrite Hk. unfold keyOf in *. by rewrite Hmeta1.
      - by rewrite Hd, Hmeta1.
      - rewrite Hf. unfold ContainsFinalizer in *. by rewrite Hmeta1.
      - rewrite Hs. congruence. }
    destruct (IH s1 Hsettled1) as (s' & Hrest & Hsettled' & Hdep' & Hsvc' & Hspec').
    exists s'. cbn [passes repeat]. rewrite Hrun1, Hrest.
    split_and!; try done; try congruence.
    etrans; [exact Hspec'|].
    transitivity (app_Spec <$> Some (stored (K := KAppService) app1 : AppService));
      [f_equal; exact Happ1|].
    rewrite Happ. simpl. f_equal. exact Hspec1.
Qed.

Lemma passes_keep_settled_witness :
  fst (passes 4 scenario.r0 scenario.key_a scenario.settled_store)
  = repeat (Returned (RequeueAfter_ (30 * Second)) None) 4.
Proof.
  destruct (passes_keep_settled scenario.r0 scenario.key_a 4
              scenario.settled_store)
    as (s' & Hpasses & _); [vm_compute; reflexivity|].
  by rewrite Hpasses.
Defined.

End convergence.
